(** * CLAIMVERY: the request pipeline of [backend/server.js]

    A shallow embedding of the Express route [POST /api/verify]: the multer
    upload middleware that stages an optional image, the route handler that
    validates the claim and spawns the Python agent, the stream listeners that
    accumulate the child's output, and the [close] listener that removes the
    staged file and writes the HTTP response.

    Strings are Rocq strings (sequences of bytes); the characters the code
    inspects ([/], [.], the decimal digits) are single bytes of UTF-8, so the
    string algorithms below read the same on bytes as on UTF-16 code units.
    A chunk of a child's output is a buffer of raw bytes; a JavaScript
    string is written as the UTF-8 bytes of its text. *)

From Stdlib Require Import ZArith Lia Ascii String.
From stdpp Require Import base option list strings pretty gmap.

Local Open Scope string_scope.

(** ** Platform functions used by the server *)

(** [Number.prototype.toString] on a non-negative integer below 2^53 (what
    [Date.now()] returns): the decimal numeral, without leading zeros. *)
Definition number_to_string (n : N) : string := pretty n.

(** [path.extname] of Node's posix [path] module: a backward scan over the
    last path component.  The record holds the scan's local variables, with
    [-1] for "not seen yet" as in the library. *)
Record ext_scan := ExtScan {
  startDot : Z;
  startPart : Z;
  scan_end : Z;
  matchedSlash : bool;
  preDotState : Z
}.

Definition ext_scan_init : ext_scan :=
  {| startDot := -1; startPart := 0; scan_end := -1;
     matchedSlash := true; preDotState := 0 |}.

(** One iteration of the scan at index [i], on character [c], for a
    character that is not a separator. *)
Definition ext_scan_char (i : nat) (c : ascii) (st : ext_scan) : ext_scan :=
  let st1 :=
    if (scan_end st =? -1)%Z
    then {| startDot := startDot st; startPart := startPart st;
            scan_end := Z.of_nat i + 1; matchedSlash := false;
            preDotState := preDotState st |}
    else st in
  if Ascii.eqb c "." then
    if (startDot st1 =? -1)%Z
    then {| startDot := Z.of_nat i; startPart := startPart st1;
            scan_end := scan_end st1; matchedSlash := matchedSlash st1;
            preDotState := preDotState st1 |}
    else if negb (preDotState st1 =? 1)%Z
    then {| startDot := startDot st1; startPart := startPart st1;
            scan_end := scan_end st1; matchedSlash := matchedSlash st1;
            preDotState := 1 |}
    else st1
  else if negb (startDot st1 =? -1)%Z
  then {| startDot := startDot st1; startPart := startPart st1;
          scan_end := scan_end st1; matchedSlash := matchedSlash st1;
          preDotState := -1 |}
  else st1.

(** The loop [for (i = path.length - 1; i >= 0; --i)]: [n] is [i + 1]. *)
Fixpoint ext_scan_loop (path : string) (n : nat) (st : ext_scan) : ext_scan :=
  match n with
  | O => st
  | S i =>
    match String.get i path with
    | None => st
    | Some c =>
      if Ascii.eqb c "/" then
        if negb (matchedSlash st)
        then {| startDot := startDot st; startPart := Z.of_nat i + 1;
                scan_end := scan_end st; matchedSlash := matchedSlash st;
                preDotState := preDotState st |}
        else ext_scan_loop path i st
      else ext_scan_loop path i (ext_scan_char i c st)
    end
  end.

Definition extname (path : string) : string :=
  let st := ext_scan_loop path (String.length path) ext_scan_init in
  if ((startDot st =? -1) || (scan_end st =? -1) || (preDotState st =? 0) ||
      ((preDotState st =? 1) && (startDot st =? scan_end st - 1) &&
       (startDot st =? startPart st + 1)))%Z
  then ""
  else substring (Z.to_nat (startDot st))
                 (Z.to_nat (scan_end st - startDot st)) path.

(** [Buffer.prototype.toString()]: the bytes of one buffer decoded as
    UTF-8, each ill-formed part replaced by U+FFFD.  The decoder is that of
    the Encoding standard: [needed] continuation bytes are still to come,
    the next one must lie between [lower] and [upper], and [pending] holds
    the bytes of the sequence read so far.  It starts afresh on every
    buffer, so a sequence cut off by the end of the buffer is ill-formed. *)
Definition replacement_character : string :=
  String (ascii_of_nat 239) (String (ascii_of_nat 191)
    (String (ascii_of_nat 189) "")).

(** The decoder on the first byte of a sequence; [k] continues on the rest
    of the buffer. *)
Definition utf8_lead (b : ascii) (k : nat -> nat -> nat -> string -> string)
  : string :=
  let n := nat_of_ascii b in
  if (n <=? 127)%nat then String b (k 0 128 191 "")
  else if ((194 <=? n) && (n <=? 223))%nat then k 1 128 191 (String b "")
  else if ((224 <=? n) && (n <=? 239))%nat then
    k 2 (if (n =? 224)%nat then 160 else 128)
        (if (n =? 237)%nat then 159 else 191) (String b "")
  else if ((240 <=? n) && (n <=? 244))%nat then
    k 3 (if (n =? 240)%nat then 144 else 128)
        (if (n =? 244)%nat then 143 else 191) (String b "")
  else replacement_character +:+ k 0 128 191 "".

Fixpoint utf8_decode (needed lower upper : nat) (pending s : string) : string :=
  match s with
  | EmptyString =>
      match needed with
      | O => ""
      | S _ => replacement_character
      end
  | String b r =>
      let k := fun nd lo up pd => utf8_decode nd lo up pd r in
      match needed with
      | O => utf8_lead b k
      | S m =>
          let n := nat_of_ascii b in
          if ((lower <=? n) && (n <=? upper))%nat then
            match m with
            | O => pending +:+ String b (k 0 128 191 "")
            | S _ => k m 128 191 (pending +:+ String b "")
            end
          else replacement_character +:+ utf8_lead b k
      end
  end.

Definition Buffer_toString (data : string) : string :=
  utf8_decode 0 128 191 "" data.

(** A buffer made of one byte. *)
Definition byte (n : nat) : string := String (ascii_of_nat n) "".

(** Whether every byte of [s] is an ASCII character. *)
Fixpoint all_ascii (s : string) : bool :=
  match s with
  | EmptyString => true
  | String b r => (nat_of_ascii b <=? 127)%nat && all_ascii r
  end.

(** ** Shapes of names

    Predicates the statements about staged file names are phrased with. *)

Definition is_digit (c : ascii) : bool :=
  let n := nat_of_ascii c in (48 <=? n)%nat && (n <=? 57)%nat.

Fixpoint all_digits (s : string) : bool :=
  match s with
  | EmptyString => true
  | String c r => is_digit c && all_digits r
  end.

(** An extension is empty or starts with the dot. *)
Definition ext_shaped (e : string) : Prop :=
  e = "" \/ exists r, e = String "." r.

(** Invariant of the scan: once a dot has been recorded, it is a dot of [p]
    in front of the end mark. *)
Definition dot_found (p : string) (st : ext_scan) : Prop :=
  startDot st = (-1)%Z \/
  ((0 <= startDot st < scan_end st)%Z /\
   String.get (Z.to_nat (startDot st)) p = Some "."%char).

(** Invariant of the scan: the end mark, once set, lies behind the part
    still to be scanned. *)
Definition end_behind (n : nat) (st : ext_scan) : Prop :=
  scan_end st = (-1)%Z \/ (Z.of_nat n < scan_end st)%Z.

(** ** JSON documents

    [JSON.parse] is a service of the JavaScript runtime.  The server only
    distinguishes two results: a value, or a thrown [SyntaxError] ([None]).
    The development is generic in the runtime's parser and in its type of
    values. *)
Class JSON := {
  value : Type;
  JSON_parse : string -> option value;
  (** the empty text is not a JSON document *)
  JSON_parse_empty : JSON_parse "" = None
}.

(** ** Requests, files and observable effects *)

(** The file part [claimImage] as multer hands it to the storage: the
    [originalname] of its [file] object and the bytes of the file. *)
Record upload := Upload {
  originalname : string;
  content : string
}.

(** The multipart request on the wire, as the form of the front end sends
    it: multer delivers each text field as a string, or not at all. *)
Record http_request := HttpRequest {
  field_original_claim : option string;
  field_source_identifier : option string;
  claimImage : option upload
}.

(** [req.file] as multer's disk storage fills it in. *)
Record multer_file := MulterFile {
  file_originalname : string;
  filename : string;
  path : string
}.

(** [req] as the route handler sees it: [req.body] and [req.file]. *)
Record request := Request {
  original_claim : option string;
  source_identifier : option string;
  file : option multer_file
}.

Definition environment := list (string * string).

(** What the module reads from its surroundings: the value of
    [path.join(__dirname, 'main.py')] and [process.env]. *)
Record server_config := ServerConfig {
  main_py : string;
  process_env : environment
}.

(** The three [console.log] calls of the route. *)
Inductive log_entry :=
| LogReceived (claim : string) (source : option string) (imagePath : string)
| LogStarting
| LogExited (code : option Z).

(** Exceptions of the file-system calls. *)
Inductive js_error :=
| ENOENT (syscall : string) (target : string).

(** The child process as the server observes it: chunks on the two output
    streams, each a buffer of bytes, in arrival order, then [close] with the
    exit code ([None] is JavaScript's [null], a child ended by a signal). *)
Inductive child_event :=
| Stdout (data : string)
| Stderr (data : string).

Record child_run := ChildRun {
  output : list child_event;
  exit_code : option Z
}.

(** What becomes of the engine of a request: the child starts and closes;
    it cannot be started; or it starts and never closes. *)
Inductive engine :=
| EngineCloses (child : child_run)
| EngineFailsToStart
| EngineNeverCloses (output : list child_event).

Section Server.
Context `{JSON}.

(** The argument of [res.json]. *)
Inductive body :=
| ErrorBody (error : string) (details : option string)
| Payload (v : value).

Inductive event :=
| EvWriteFile (target : string)
| EvLog (entry : log_entry)
| EvSpawn (command : string) (args : list string) (env : environment)
| EvUnlink (target : string)
| EvRespond (status : Z) (b : body).

(** *** Effects: the upload directory, the event trace, exceptions *)

Inductive completion (A : Type) :=
| Normal (a : A)
| Throw (e : js_error).
Arguments Normal {A} a.
Arguments Throw {A} e.

Record run (A : Type) := Run {
  files : gmap string string;
  emitted : list event;
  outcome : completion A
}.
Arguments Run {A} files emitted outcome.
Arguments files {A} r.
Arguments emitted {A} r.
Arguments outcome {A} r.

Definition M (A : Type) : Type := gmap string string -> run A.

#[local] Instance M_ret : MRet M := fun A a fs => Run fs [] (Normal a).

#[local] Instance M_bind : MBind M := fun A B k m fs =>
  let r := m fs in
  match outcome r with
  | Normal a =>
      let r' := k a (files r) in
      Run (files r') (emitted r ++ emitted r') (outcome r')
  | Throw e => Run (files r) (emitted r) (Throw e)
  end.

Definition emit (e : event) : M unit := fun fs => Run fs [e] (Normal tt).

(** multer's disk storage opens the target for writing: an existing file of
    that name is replaced. *)
Definition writeFile (target data : string) : M unit :=
  fun fs => Run (<[target := data]> fs) [EvWriteFile target] (Normal tt).

(** [fs.unlinkSync]: removes the file, or throws when there is none. *)
Definition unlinkSync (target : string) : M unit :=
  fun fs =>
    match fs !! target with
    | Some _ => Run (delete target fs) [EvUnlink target] (Normal tt)
    | None => Run fs [] (Throw (ENOENT "unlink" target))
    end.

Definition console_log (entry : log_entry) : M unit := emit (EvLog entry).

Definition spawn (command : string) (args : list string) (env : environment)
  : M unit := emit (EvSpawn command args env).

(** [res.status(status).json(b)]; [res.json(b)] is [res_json 200 b]. *)
Definition res_json (status : Z) (b : body) : M unit := emit (EvRespond status b).

(** *** The upload middleware: [upload.single('claimImage')] *)

Definition uploadDir : string := "uploads".

(** The [filename] callback of the disk storage, at clock reading [now]. *)
Definition storage_filename (now : N) (originalname : string) : string :=
  number_to_string now +:+ extname originalname.

(** multer joins destination and file name into [req.file.path]. *)
Definition storage_path (now : N) (originalname : string) : string :=
  uploadDir +:+ "/" +:+ storage_filename now originalname.

Definition upload_single (now : N) (r : http_request) : M request :=
  match claimImage r with
  | None =>
      mret {| original_claim := field_original_claim r;
              source_identifier := field_source_identifier r;
              file := None |}
  | Some u =>
      let f := {| file_originalname := originalname u;
                  filename := storage_filename now (originalname u);
                  path := storage_path now (originalname u) |} in
      writeFile (path f) (content u) ;;
      mret {| original_claim := field_original_claim r;
              source_identifier := field_source_identifier r;
              file := Some f |}
  end.

(** *** The route handler *)

(** The variables the listeners close over. *)
Record pending := Pending {
  req_file : option multer_file;
  imagePath : string;
  resultData : string;
  errorData : string
}.

(** [x || d] on a string that may be [undefined]. *)
Definition or_else (x : option string) (d : string) : string :=
  match x with
  | None | Some "" => d
  | Some s => s
  end.

Variable cfg : server_config.

Definition verify (req : request) : M (option pending) :=
  let imagePath := match file req with Some f => path f | None => "null" end in
  match original_claim req with
  | None | Some "" =>
      res_json 400 (ErrorBody "Claim text is required." None) ;;
      mret None
  | Some claim =>
      console_log (LogReceived claim (source_identifier req) imagePath) ;;
      console_log LogStarting ;;
      spawn "python"
            [main_py cfg; claim; or_else (source_identifier req) "N/A"; imagePath]
            (process_env cfg) ;;
      mret (Some {| req_file := file req; imagePath := imagePath;
                    resultData := ""; errorData := "" |})
  end.

(** The [data] listeners of the two streams: [x += data.toString()]. *)
Definition on_stdout (data : string) (p : pending) : pending :=
  {| req_file := req_file p; imagePath := imagePath p;
     resultData := resultData p +:+ Buffer_toString data;
     errorData := errorData p |}.

Definition on_stderr (data : string) (p : pending) : pending :=
  {| req_file := req_file p; imagePath := imagePath p;
     resultData := resultData p;
     errorData := errorData p +:+ Buffer_toString data |}.

Definition on_data (p : pending) (e : child_event) : pending :=
  match e with
  | Stdout data => on_stdout data p
  | Stderr data => on_stderr data p
  end.

(** The test [code === 0 && resultData]. *)
Definition succeeded (code : option Z) (resultData : string) : bool :=
  bool_decide (code = Some 0%Z) && negb (String.eqb resultData "").

(** The [if]/[else] at the end of the [close] listener. *)
Definition interpret (code : option Z) (resultData errorData : string) : Z * body :=
  if succeeded code resultData then
    match JSON_parse resultData with
    | Some v => (200%Z, Payload v)
    | None =>
        (500%Z, ErrorBody "Failed to parse agent result." (Some resultData))
    end
  else (500%Z, ErrorBody "Agent script failed." (Some errorData)).

(** The [close] listener. *)
Definition on_close (code : option Z) (p : pending) : M unit :=
  console_log (LogExited code) ;;
  match req_file p with
  | Some _ => unlinkSync (imagePath p)
  | None => mret tt
  end ;;
  let '(status, b) := interpret code (resultData p) (errorData p) in
  res_json status b.

(** *** Whole requests *)

(** One request served with nothing else touching the upload directory:
    middleware, handler, the child's output, then [close]. *)
Definition serve (now : N) (r : http_request) (child : child_run) : M unit :=
  req ← upload_single now r;
  p ← verify req;
  match p with
  | None => mret tt
  | Some p => on_close (exit_code child) (foldl on_data p (output child))
  end.

(** Two requests in flight together: both uploads are staged and both
    children started before the first child closes. *)
Definition serve_overlapped (now1 : N) (r1 : http_request) (child1 : child_run)
    (now2 : N) (r2 : http_request) (child2 : child_run) : M unit :=
  req1 ← upload_single now1 r1;
  req2 ← upload_single now2 r2;
  p1 ← verify req1;
  p2 ← verify req2;
  match p1 with
  | None => mret tt
  | Some p => on_close (exit_code child1) (foldl on_data p (output child1))
  end ;;
  match p2 with
  | None => mret tt
  | Some p => on_close (exit_code child2) (foldl on_data p (output child2))
  end.

(** An exception that nothing catches. *)
Definition throw {A : Type} (e : js_error) : M A :=
  fun fs => Run fs [] (Throw e).

(** One request served alone, whatever becomes of its engine.  A child
    that cannot be started emits [error]; the route registers no listener
    for it, so the event is thrown.  A child that never closes leaves the
    [close] listener waiting. *)
Definition serve_engine (now : N) (r : http_request) (e : engine) : M unit :=
  req ← upload_single now r;
  p ← verify req;
  match p with
  | None => mret tt
  | Some p =>
      match e with
      | EngineCloses child =>
          on_close (exit_code child) (foldl on_data p (output child))
      | EngineFailsToStart => throw (ENOENT "spawn python" "python")
      | EngineNeverCloses _ => mret tt
      end
  end.

(** Requests served one after another, each to its end before the next
    arrives: clock reading, request and engine of each.  An exception that
    nothing catches ends the process, and with it the service. *)
Fixpoint serve_all (reqs : list (N * http_request * engine)) : M unit :=
  match reqs with
  | [] => mret tt
  | (now, r, e) :: rest => serve_engine now r e ;; serve_all rest
  end.

(** *** Observations on a trace *)

Definition responses (evs : list event) : list (Z * body) :=
  omap (fun e => match e with EvRespond s b => Some (s, b) | _ => None end) evs.

Definition spawns (evs : list event) : list (string * list string * environment) :=
  omap (fun e => match e with EvSpawn c a v => Some (c, a, v) | _ => None end) evs.

Definition written (evs : list event) : list string :=
  omap (fun e => match e with EvWriteFile t => Some t | _ => None end) evs.

Definition unlinked (evs : list event) : list string :=
  omap (fun e => match e with EvUnlink t => Some t | _ => None end) evs.

(** What the listeners have accumulated from each stream when the child
    closes: the chunks of the stream, each decoded on its own, in order. *)
Definition stdout_of (evs : list child_event) : string :=
  foldr (fun e acc => match e with
                      | Stdout d => Buffer_toString d +:+ acc
                      | Stderr _ => acc
                      end) "" evs.

Definition stderr_of (evs : list child_event) : string :=
  foldr (fun e acc => match e with
                      | Stderr d => Buffer_toString d +:+ acc
                      | Stdout _ => acc
                      end) "" evs.

(** The bytes the child wrote to each stream, over the whole run. *)
Definition stdout_bytes_of (evs : list child_event) : string :=
  foldr (fun e acc => match e with Stdout d => d +:+ acc | Stderr _ => acc end) "" evs.

Definition stderr_bytes_of (evs : list child_event) : string :=
  foldr (fun e acc => match e with Stderr d => d +:+ acc | Stdout _ => acc end) "" evs.

End Server.

Arguments Normal {A} a.
Arguments Throw {A} e.
Arguments Run {_ A} files emitted outcome.
Arguments files {_ A} r.
Arguments emitted {_ A} r.
Arguments outcome {_ A} r.

(** ** A reference JSON reader

    An instance of the runtime interface for running the model on concrete
    texts: a reader for the ECMA-404 grammar that [JSON.parse] accepts.  It
    returns the document tree and keeps number and string literals as they
    are spelled, so it involves no floating-point conversion. *)
#[local] Set Warnings "-register-all".
Inductive json :=
| JNull
| JBool (b : bool)
| JNumber (literal : string)
| JString (literal : string)
| JArray (items : list json)
| JObject (members : list (string * json)).

(** The quotation mark, code 34. *)
Definition dquote : ascii := ascii_of_nat 34.

(** A text between quotation marks. *)
Definition quoted (s : string) : string :=
  String dquote (s +:+ String dquote "").

Definition is_ws (c : ascii) : bool :=
  let n := nat_of_ascii c in
  (n =? 32)%nat || (n =? 9)%nat || (n =? 10)%nat || (n =? 13)%nat.

Definition is_hex (c : ascii) : bool :=
  let n := nat_of_ascii c in
  is_digit c || ((65 <=? n)%nat && (n <=? 70)%nat)
             || ((97 <=? n)%nat && (n <=? 102)%nat).

Fixpoint skip_ws (s : string) : string :=
  match s with
  | String c r => if is_ws c then skip_ws r else s
  | EmptyString => s
  end.

(** The longest prefix of digits, and what follows it. *)
Fixpoint take_digits (s : string) : string * string :=
  match s with
  | String c r =>
      if is_digit c
      then let '(d, r') := take_digits r in (String c d, r')
      else ("", s)
  | EmptyString => ("", s)
  end.

(** [int]: a single [0], or a nonzero digit followed by digits. *)
Definition read_int (s : string) : option (string * string) :=
  match s with
  | String c r =>
      if Ascii.eqb c "0" then Some ("0", r)
      else if is_digit c
      then let '(d, r') := take_digits r in Some (String c d, r')
      else None
  | EmptyString => None
  end.

Definition read_frac (s : string) : option (string * string) :=
  match s with
  | String "." r =>
      match take_digits r with
      | ("", _) => None
      | (d, r') => Some ("." +:+ d, r')
      end
  | _ => Some ("", s)
  end.

Definition read_exp (s : string) : option (string * string) :=
  match s with
  | String c r =>
      if Ascii.eqb c "e" || Ascii.eqb c "E" then
        let '(sign, r1) :=
          match r with
          | String "+" r1 => ("+", r1)
          | String "-" r1 => ("-", r1)
          | _ => ("", r)
          end in
        match take_digits r1 with
        | ("", _) => None
        | (d, r') => Some (String c sign +:+ d, r')
        end
      else Some ("", s)
  | EmptyString => Some ("", s)
  end.

Definition read_number (s : string) : option (string * string) :=
  let '(sign, s0) :=
    match s with
    | String "-" r => ("-", r)
    | _ => ("", s)
    end in
  '(i, s1) ← read_int s0;
  '(f, s2) ← read_frac s1;
  '(e, s3) ← read_exp s2;
  Some (sign +:+ i +:+ f +:+ e, s3).

(** The characters of a string literal after its opening quote, up to and
    without the closing quote. *)
Fixpoint read_chars (s : string) : option (string * string) :=
  match s with
  | EmptyString => None
  | String c r =>
      if Ascii.eqb c dquote then Some ("", r)
      else if Ascii.eqb c "\" then
        match r with
        | String "u" (String h1 (String h2 (String h3 (String h4 r')))) =>
            if is_hex h1 && is_hex h2 && is_hex h3 && is_hex h4 then
              '(l, r'') ← read_chars r';
              Some (String c (String "u" (String h1 (String h2
                      (String h3 (String h4 l))))), r'')
            else None
        | String e r' =>
            if existsb (Ascii.eqb e)
                 [dquote; "\"; "/"; "b"; "f"; "n"; "r"; "t"]%char
            then '(l, r'') ← read_chars r'; Some (String c (String e l), r'')
            else None
        | EmptyString => None
        end
      else if (nat_of_ascii c <? 32)%nat then None
      else '(l, r') ← read_chars r; Some (String c l, r')
  end.

(** If [s] starts with the keyword, what follows it. *)
Fixpoint read_keyword (kw s : string) : option string :=
  match kw, s with
  | EmptyString, _ => Some s
  | String k kw', String c r => if Ascii.eqb k c then read_keyword kw' r else None
  | String _ _, EmptyString => None
  end.

Fixpoint read_value (fuel : nat) (s : string) : option (json * string) :=
  match fuel with
  | O => None
  | S fuel' =>
    match skip_ws s with
    | EmptyString => None
    | String c r =>
      if Ascii.eqb c "n" then r' ← read_keyword "ull" r; Some (JNull, r')
      else if Ascii.eqb c "t" then r' ← read_keyword "rue" r; Some (JBool true, r')
      else if Ascii.eqb c "f" then r' ← read_keyword "alse" r; Some (JBool false, r')
      else if Ascii.eqb c dquote then
        '(l, r') ← read_chars r; Some (JString l, r')
      else if Ascii.eqb c "[" then
        match skip_ws r with
        | String "]" r' => Some (JArray [], r')
        | _ => '(l, r') ← read_items fuel' r; Some (JArray l, r')
        end
      else if Ascii.eqb c "{" then
        match skip_ws r with
        | String "}" r' => Some (JObject [], r')
        | _ => '(l, r') ← read_members fuel' r; Some (JObject l, r')
        end
      else '(l, r') ← read_number (String c r); Some (JNumber l, r')
    end
  end
with read_items (fuel : nat) (s : string) : option (list json * string) :=
  match fuel with
  | O => None
  | S fuel' =>
    '(v, r) ← read_value fuel' s;
    match skip_ws r with
    | String "," r' => '(l, r'') ← read_items fuel' r'; Some (v :: l, r'')
    | String "]" r' => Some ([v], r')
    | _ => None
    end
  end
with read_members (fuel : nat) (s : string)
    : option (list (string * json) * string) :=
  match fuel with
  | O => None
  | S fuel' =>
    match skip_ws s with
    | String c r0 =>
      if Ascii.eqb c dquote then
        '(k, r1) ← read_chars r0;
        match skip_ws r1 with
        | String ":" r2 =>
          '(v, r) ← read_value fuel' r2;
          match skip_ws r with
          | String "," r' =>
              '(l, r'') ← read_members fuel' r'; Some ((k, v) :: l, r'')
          | String "}" r' => Some ([(k, v)], r')
          | _ => None
          end
        | _ => None
        end
      else None
    | EmptyString => None
    end
  end.

(** A whole text: one value, with white space around it and nothing else.
    The fuel bounds the depth of the recursion and grows with the text. *)
Definition json_read (s : string) : option json :=
  '(v, r) ← read_value (2 * String.length s + 2) s;
  if String.eqb (skip_ws r) "" then Some v else None.

#[export] Instance reference_json : JSON :=
  {| value := json; JSON_parse := json_read; JSON_parse_empty := eq_refl |}.


(** ** Scenarios

    Concrete requests and child runs, on the reference reader. *)

Definition demo_config : server_config :=
  {| main_py := "/srv/claimvery/backend/main.py";
     process_env := [("PATH", "/usr/bin"); ("GOOGLE_API_KEY", "k-123")] |}.

(** The report of Scenario A, as the engine prints it in two pieces. *)
Definition sky_report_head : string :=
  "{" +:+ quoted "final_verdict" +:+ ":" +:+ quoted "False" +:+ ",".

Definition sky_report_tail : string :=
  quoted "verdict_explanation" +:+ ":" +:+ quoted "..." +:+ "," +:+
  quoted "detailed_sources" +:+ ":[]}".

Definition sky_report : string := sky_report_head +:+ sky_report_tail.

(** A claim alone, as in the form with both optional inputs left out. *)
Definition sky_request : http_request :=
  {| field_original_claim := Some "The sky is green";
     field_source_identifier := None;
     claimImage := None |}.

Definition sky_shot : upload :=
  {| originalname := "shot.png"; content := "PNG1" |}.

(** A file of the same name from another client. *)
Definition sea_shot : upload :=
  {| originalname := "shot.png"; content := "PNG2" |}.

(** A photo from a camera roll. *)
Definition camera_photo : upload :=
  {| originalname := "IMG_0001.JPG"; content := "JFIF" |}.

(** The same claim with a source and a screenshot. *)
Definition sky_request_with_image : http_request :=
  {| field_original_claim := Some "The sky is green";
     field_source_identifier := Some "https://example.org/sky";
     claimImage := Some sky_shot |}.

(** The same claim and source again, with a different file. *)
Definition sky_request_with_photo : http_request :=
  {| field_original_claim := Some "The sky is green";
     field_source_identifier := Some "https://example.org/sky";
     claimImage := Some camera_photo |}.

(** Another client's request that happens to carry a file of the same name. *)
Definition sea_request_with_image : http_request :=
  {| field_original_claim := Some "The sea is red";
     field_source_identifier := Some "";
     claimImage := Some sea_shot |}.

Definition empty_claim_request : http_request :=
  {| field_original_claim := Some "";
     field_source_identifier := None;
     claimImage := None |}.

Definition empty_claim_with_image : http_request :=
  {| field_original_claim := Some "";
     field_source_identifier := None;
     claimImage := Some sky_shot |}.

Definition blank_claim_request : http_request :=
  {| field_original_claim := Some "   ";
     field_source_identifier := None;
     claimImage := None |}.

(** The engine prints its report in two chunks and exits with 0. *)
Definition child_ok : child_run :=
  {| output := [Stdout sky_report_head;
                Stderr "searching...";
                Stdout sky_report_tail];
     exit_code := Some 0%Z |}.

(** The same output in other chunks. *)
Definition child_ok_rechunked : child_run :=
  {| output := [Stderr "search"; Stdout sky_report; Stderr "ing..."];
     exit_code := Some 0%Z |}.

Definition child_failed : child_run :=
  {| output := [Stderr "API key missing"]; exit_code := Some 1%Z |}.

Definition child_garbled : child_run :=
  {| output := [Stdout "not json"]; exit_code := Some 0%Z |}.


(** The two bytes of the letter e-acute in UTF-8. *)
Definition accent : string := byte 195 +:+ byte 169.

(** The JSON string of that letter, printed in one chunk. *)
Definition child_accent_whole : child_run :=
  {| output := [Stdout (quoted accent)]; exit_code := Some 0%Z |}.

(** The same bytes, with the chunk boundary between the two bytes of the
    letter. *)
Definition child_accent_split : child_run :=
  {| output := [Stdout (String dquote (byte 195));
                Stdout (byte 169 +:+ String dquote "")];
     exit_code := Some 0%Z |}.

Definition clock : N := 1700000000000.

(** Two requests with files of the same name, served in turn at the same
    clock reading. *)
Definition two_in_turn : list (N * http_request * engine) :=
  [(1700000000000%N, sky_request_with_image, EngineCloses child_ok);
   (1700000000000%N, sea_request_with_image, EngineCloses child_failed)].

(** The handler's variables for [sky_request_with_image] staged at [clock],
    once the child has printed [sky_report]. *)
Definition staged_pending : pending :=
  {| req_file := Some {| file_originalname := "shot.png";
                         filename := "1700000000000.png";
                         path := "uploads/1700000000000.png" |};
     imagePath := "uploads/1700000000000.png";
     resultData := sky_report;
     errorData := "searching..." |}.

(** A claim text made of white space only. *)
Definition whitespace_only (s : string) : bool :=
  String.eqb (skip_ws s) "".

(** ** Traces in sequence *)

(** The run [r] after the events [evs] of what came before it. *)
Definition prepend `{JSON} {A : Type} (evs : list event) (r : run A) : run A :=
  Run (files r) (evs ++ emitted r) (outcome r).

(** ** More shapes of names *)

(** Whether character [c] occurs in [s]. *)
Fixpoint has_char (c : ascii) (s : string) : bool :=
  match s with
  | EmptyString => false
  | String x r => Ascii.eqb x c || has_char c r
  end.

(** Invariant of the scan at loop counter [n] (the indices from [n] on have
    been visited): the end mark lies inside the path, the recorded dot is a
    dot in front of it and the last one of the component, and no separator
    lies between the part still to be scanned and the end mark. *)
Record scan_inv (p : string) (n : nat) (st : ext_scan) : Prop := ScanInv {
  inv_slash : matchedSlash st = true <-> scan_end st = (-1)%Z;
  inv_end : scan_end st = (-1)%Z \/
            (Z.of_nat n < scan_end st <= Z.of_nat (String.length p))%Z;
  inv_dot : startDot st = (-1)%Z \/
            ((Z.of_nat n <= startDot st < scan_end st)%Z /\
             String.get (Z.to_nat (startDot st)) p = Some "."%char);
  inv_no_slash : forall j, (Z.of_nat n <= Z.of_nat j < scan_end st)%Z ->
                 String.get j p <> Some "/"%char;
  inv_no_dot_yet : startDot st = (-1)%Z ->
                   forall j, (Z.of_nat n <= Z.of_nat j < scan_end st)%Z ->
                   String.get j p <> Some "."%char;
  inv_last_dot : forall j, (startDot st < Z.of_nat j < scan_end st)%Z ->
                 startDot st <> (-1)%Z ->
                 String.get j p <> Some "."%char
}.

(** Nothing, or a directory part that ends with the separator. *)
Definition dir_prefix (pre : string) : Prop :=
  pre = "" \/ exists dir, pre = dir +:+ "/".

(** A character of [q] at index [j] that is neither separator nor dot. *)
Definition plain_at (q : string) (j : nat) : Prop :=
  exists c, String.get j q = Some c /\ c <> "/"%char /\ c <> "."%char.

(** The scan state once the end of the component has been marked at [e]. *)
Definition mark_end (e : Z) (st : ext_scan) : ext_scan :=
  if (scan_end st =? -1)%Z
  then {| startDot := startDot st; startPart := startPart st;
          scan_end := e; matchedSlash := false;
          preDotState := preDotState st |}
  else st.

(** The scan state once a character has been seen in front of the dot. *)
Definition before_dot (st : ext_scan) : ext_scan :=
  {| startDot := startDot st; startPart := startPart st;
     scan_end := scan_end st; matchedSlash := matchedSlash st;
     preDotState := -1 |}.

(** ** The front end: [frontend/src/App.jsx]

    The form component posts the request with axios and keeps three pieces
    of state; the results component chooses what to show from them. *)

(** [ToBoolean] of the runtime on a parsed value, as [!results] applies it. *)
Class ToBoolean `{JSON} := to_boolean : value -> bool.

Section FrontEnd.
Context `{JSON} `{!ToBoolean}.

(** How the promise of [axios.post] settles, as far as [handleSubmit] looks:
    [response.data] when it resolves; [err.response?.data?.details] and
    [err.response?.data?.error] when it rejects, each a string or
    [undefined]. *)
Inductive post_outcome :=
| PostResolved (data : body)
| PostRejected (details error : option string).

(** axios resolves on a status from 200 to 299 and rejects otherwise; with
    no HTTP response at all it rejects with [err.response] undefined.  The
    properties of an arbitrary JSON value that arrives with an error status
    are not modelled ([None]).  A resolved response carries the value the
    handler gave to [res.json]; what writing that value out and reading it
    back does to it (numbers beyond the range of a double arrive as [null])
    is not modelled. *)
Definition axios_post (response : option (Z * body)) : option post_outcome :=
  match response with
  | None => Some (PostRejected None None)
  | Some (status, b) =>
      if ((200 <=? status) && (status <? 300))%Z then Some (PostResolved b)
      else match b with
           | ErrorBody e d => Some (PostRejected d (Some e))
           | Payload _ => None
           end
  end.

(** The three [useState] cells of [App].  [results] is [Some data] once
    [setResults] has been given the document [data]; a document that is
    [null] is in the code the same value as the cell never set, and
    [ResultsDisplay] treats the two alike. *)
Record app_state := AppState {
  results : option body;
  loading : bool;
  error : option string
}.

Definition initial_state : app_state :=
  {| results := None; loading := false; error := None |}.

(** [handleSubmit] up to the [await]. *)
Definition handleSubmit_begin (st : app_state) : app_state :=
  {| results := None; loading := true; error := None |}.

(** [handleSubmit] after the [await]: [try], [catch], [finally]. *)
Definition handleSubmit_end (o : post_outcome) (st : app_state) : app_state :=
  match o with
  | PostResolved data =>
      {| results := Some data; loading := false; error := error st |}
  | PostRejected details err =>
      let errorMessage :=
        or_else details (or_else err "An unexpected error occurred.") in
      {| results := results st; loading := false; error := Some errorMessage |}
  end.

(** Which branch of [ResultsDisplay] is taken.  [ViewReport] stands for the
    report markup evaluated on [data]; what that markup makes of the fields
    of [data] is not modelled. *)
Inductive view :=
| ViewLoading
| ViewError (message : string)
| ViewNothing
| ViewReport (data : body).

(** A response body as a condition: an object is true. *)
Definition truthy_body (b : body) : bool :=
  match b with
  | ErrorBody _ _ => true
  | Payload v => to_boolean v
  end.

Definition ResultsDisplay (st : app_state) : view :=
  if loading st then ViewLoading
  else match error st with
       | Some (String c m) => ViewError (String c m)
       | _ =>
           match results st with
           | Some data => if truthy_body data then ViewReport data else ViewNothing
           | None => ViewNothing
           end
       end.

(** What the client of a server run receives: the response, if one was
    sent. *)
Definition received (evs : list event) : option (Z * body) :=
  head (responses evs).

(** One submission against a server that serves it alone, from front-end
    state [st]. *)
Definition submit (cfg : server_config) (now : N) (r : http_request)
    (child : child_run) (fs : gmap string string) (st : app_state)
    : option app_state :=
  o ← axios_post (received (emitted (serve cfg now r child fs)));
  Some (handleSubmit_end o (handleSubmit_begin st)).

End FrontEnd.

(** *** Truth values of the reference reader's documents *)

(** The number a string of digits denotes. *)
Fixpoint digits_value_from (acc : N) (s : string) : N :=
  match s with
  | EmptyString => acc
  | String c r => digits_value_from (acc * 10 + (N_of_ascii c - 48))%N r
  end.

Definition digits_value (s : string) : N := digits_value_from 0 s.

(** Mantissa and decimal exponent of a number literal. *)
Definition literal_parts (lit : string) : option (N * Z) :=
  let s0 := match lit with String "-" r => r | _ => lit end in
  '(i, s1) ← read_int s0;
  '(f, s2) ← read_frac s1;
  '(e, _) ← read_exp s2;
  let frac := match f with String _ d => d | EmptyString => "" end in
  let exponent :=
    match e with
    | String _ (String "-" d) => (- Z.of_N (digits_value d))%Z
    | String _ (String "+" d) => Z.of_N (digits_value d)
    | String _ d => Z.of_N (digits_value d)
    | EmptyString => 0%Z
    end in
  Some (digits_value (i +:+ frac),
        (exponent - Z.of_nat (String.length frac))%Z).

(** A number is true unless it is zero as a double: unless its magnitude
    is at most 2^-1075, half the least positive double. *)
Definition number_truthy (lit : string) : bool :=
  match literal_parts lit with
  | Some (m, e) =>
      if (0 <=? e)%Z then (0 <? m)%N
      else (10 ^ (- e) <? Z.of_N m * 2 ^ 1075)%Z
  | None => true
  end.

Definition json_truthy (v : json) : bool :=
  match v with
  | JNull => false
  | JBool b => b
  | JNumber lit => number_truthy lit
  | JString lit => negb (String.eqb lit "")
  | JArray _ | JObject _ => true
  end.

#[export] Instance reference_to_boolean : ToBoolean := json_truthy.

(** * Properties *)

(** Folds the empty prefix the handler starts its buffers with. *)
Ltac fold_buffers :=
  repeat match goal with
         | |- context [("" +:+ ?x)] => change ("" +:+ x) with x
         end.

(** ** The platform functions *)

Example extname_png : extname "photo.png" = ".png".
Proof. reflexivity. Qed.
Example extname_two_dots : extname "archive.tar.gz" = ".gz".
Proof. reflexivity. Qed.
Example extname_none : extname "README" = "".
Proof. reflexivity. Qed.
Example extname_hidden : extname ".bashrc" = "".
Proof. reflexivity. Qed.
Example extname_trailing_dot : extname "photo." = ".".
Proof. reflexivity. Qed.
Example extname_dotdot : extname ".." = "".
Proof. reflexivity. Qed.
Example extname_dir : extname "a.b/c" = "".
Proof. reflexivity. Qed.
Example extname_trailing_slash : extname "a.b/" = ".b".
Proof. reflexivity. Qed.

Example number_to_string_zero : number_to_string 0 = "0".
Proof. reflexivity. Qed.
Example number_to_string_clock : number_to_string 1700000000000 = "1700000000000".
Proof. reflexivity. Qed.

Lemma pretty_N_char_digit x : is_digit (pretty_N_char x) = true.
Proof. unfold pretty_N_char. repeat case_match; reflexivity. Qed.

Lemma pretty_N_go_digits x s :
  all_digits s = true -> all_digits (pretty_N_go x s) = true.
Proof.
  revert s. induction (N.lt_wf_0 x) as [x _ IH]; intros s Hs.
  destruct (decide (x = 0%N)) as [->|Hx].
  - by rewrite pretty_N_go_0.
  - rewrite pretty_N_go_step by lia. apply IH.
    + apply N.div_lt; lia.
    + simpl. by rewrite pretty_N_char_digit, Hs.
Qed.

Lemma number_to_string_digits n : all_digits (number_to_string n) = true.
Proof.
  unfold number_to_string, pretty, pretty_N. case_decide; [done|].
  by apply pretty_N_go_digits.
Qed.

Lemma number_to_string_inj n m :
  number_to_string n = number_to_string m -> n = m.
Proof. unfold number_to_string. apply (inj pretty). Qed.

Lemma substring_head n m s c :
  String.get n s = Some c -> exists r, substring n (S m) s = String c r.
Proof.
  revert s. induction n as [|n IH]; intros [|a s] Hget; simpl in *; try done.
  - injection Hget as ->. eauto.
  - by apply IH.
Qed.

Section ExtScan.
Variable p : string.

Lemma ext_scan_char_inv i c st :
  String.get i p = Some c -> dot_found p st -> end_behind (S i) st ->
  dot_found p (ext_scan_char i c st) /\
  end_behind i (ext_scan_char i c st).
Proof.
  intros Hget Hdot Hend. unfold ext_scan_char, dot_found, end_behind in *.
  destruct (Ascii.eqb_spec c "."%char) as [->|Hc];
    repeat (match goal with
            | |- context [(?a =? ?b)%Z] => destruct (Z.eqb_spec a b)
            end; simpl in *);
    rewrite ?Nat2Z.id; intuition lia.
Qed.

Lemma ext_scan_loop_inv n st :
  dot_found p st -> end_behind n st -> dot_found p (ext_scan_loop p n st).
Proof.
  revert st. induction n as [|i IH]; intros st Hdot Hend; simpl; [done|].
  destruct (String.get i p) as [c|] eqn:Hget; [|done].
  destruct (Ascii.eqb c "/").
  - destruct (matchedSlash st); simpl; [|done].
    apply IH; [done|]. unfold end_behind in *. lia.
  - destruct (ext_scan_char_inv i c st Hget Hdot Hend) as [Hd He].
    by apply IH.
Qed.
End ExtScan.

Lemma extname_shaped p : ext_shaped (extname p).
Proof.
  unfold extname, ext_shaped.
  set (st := ext_scan_loop p (String.length p) ext_scan_init).
  assert (dot_found p st) as Hdot.
  { apply ext_scan_loop_inv; [by left | by left]. }
  destruct (Z.eqb_spec (startDot st) (-1)) as [|Hne]; simpl; [by left|].
  destruct (_ || _ || _); [by left|]. right.
  destruct Hdot as [|[Hrange Hget]]; [done|].
  replace (Z.to_nat (scan_end st - startDot st))
    with (S (Z.to_nat (scan_end st - startDot st - 1))) by lia.
  by apply substring_head.
Qed.

(** ** Staged file names *)

Lemma digits_then_ext a b e e' :
  all_digits a = true -> all_digits b = true ->
  ext_shaped e -> ext_shaped e' ->
  a +:+ e = b +:+ e' -> a = b.
Proof.
  revert b. induction a as [|c a IH]; intros [|d b] Ha Hb He He' Heq;
    simpl in *.
  - done.
  - destruct He as [->|[r ->]]; [done|].
    injection Heq as <- _. done.
  - destruct He' as [->|[r ->]]; [done|].
    injection Heq as -> _. done.
  - injection Heq as -> Heq.
    apply andb_prop in Ha as [_ Ha]. apply andb_prop in Hb as [_ Hb].
    f_equal. by apply IH.
Qed.

Lemma storage_filename_clock now1 now2 name1 name2 :
  storage_filename now1 name1 = storage_filename now2 name2 -> now1 = now2.
Proof.
  unfold storage_filename. intros Heq.
  apply number_to_string_inj.
  eapply digits_then_ext;
    eauto using number_to_string_digits, extname_shaped.
Qed.

Lemma storage_path_clock now1 now2 name1 name2 :
  storage_path now1 name1 = storage_path now2 name2 -> now1 = now2.
Proof.
  unfold storage_path. intros Heq.
  apply (inj (String.append uploadDir)) in Heq.
  apply (inj (String.append "/")) in Heq.
  by eapply storage_filename_clock.
Qed.

(** ** Running the handlers *)

Lemma append_cons x (a b : string) : String x a +:+ b = String x (a +:+ b).
Proof. reflexivity. Qed.

Lemma append_assoc (a b c : string) : (a +:+ b) +:+ c = a +:+ (b +:+ c).
Proof. induction a as [|x a IH]; [done|]. by rewrite !append_cons, IH. Qed.

Lemma append_empty_r (a : string) : a +:+ "" = a.
Proof. induction a as [|x a IH]; [done|]. by rewrite append_cons, IH. Qed.

Section Runs.
Context `{JSON}.
Variable cfg : server_config.

(** The listeners only ever append to the two buffers. *)
Lemma foldl_on_data p evs :
  foldl on_data p evs =
    {| req_file := req_file p; imagePath := imagePath p;
       resultData := resultData p +:+ stdout_of evs;
       errorData := errorData p +:+ stderr_of evs |}.
Proof.
  revert p. induction evs as [|[d|d] evs IH]; intros p; simpl.
  - rewrite !append_empty_r. by destruct p.
  - rewrite IH; simpl. by rewrite append_assoc.
  - rewrite IH; simpl. by rewrite append_assoc.
Qed.

Lemma on_close_no_file code p fs :
  req_file p = None ->
  on_close code p fs =
    Run fs [EvLog (LogExited code);
            EvRespond (interpret code (resultData p) (errorData p)).1
                      (interpret code (resultData p) (errorData p)).2]
        (Normal tt).
Proof.
  intros Hf. unfold on_close. rewrite Hf.
  destruct (interpret _ _ _) as [st b]. reflexivity.
Qed.

Lemma on_close_present code p f data fs :
  req_file p = Some f -> fs !! imagePath p = Some data ->
  on_close code p fs =
    Run (delete (imagePath p) fs)
        [EvLog (LogExited code); EvUnlink (imagePath p);
         EvRespond (interpret code (resultData p) (errorData p)).1
                   (interpret code (resultData p) (errorData p)).2]
        (Normal tt).
Proof.
  intros Hf Hfs. unfold on_close. rewrite Hf.
  destruct (interpret _ _ _) as [st b].
  unfold mbind, M_bind, console_log, emit, unlinkSync, res_json; simpl.
  rewrite Hfs. reflexivity.
Qed.

Lemma on_close_missing code p f fs :
  req_file p = Some f -> fs !! imagePath p = None ->
  on_close code p fs =
    Run fs [EvLog (LogExited code)] (Throw (ENOENT "unlink" (imagePath p))).
Proof.
  intros Hf Hfs. unfold on_close. rewrite Hf.
  destruct (interpret _ _ _) as [st b].
  unfold mbind, M_bind, console_log, emit, unlinkSync, res_json; simpl.
  rewrite Hfs. reflexivity.
Qed.

#[local] Opaque on_close.

(** A request whose claim is accepted and that carries no file. *)
Lemma serve_accepted_no_file now r claim child fs :
  field_original_claim r = Some claim -> claim <> "" ->
  claimImage r = None ->
  serve cfg now r child fs =
    Run fs
      [EvLog (LogReceived claim (field_source_identifier r) "null");
       EvLog LogStarting;
       EvSpawn "python"
         [main_py cfg; claim; or_else (field_source_identifier r) "N/A"; "null"]
         (process_env cfg);
       EvLog (LogExited (exit_code child));
       EvRespond
         (interpret (exit_code child) (stdout_of (output child))
                    (stderr_of (output child))).1
         (interpret (exit_code child) (stdout_of (output child))
                    (stderr_of (output child))).2]
      (Normal tt).
Proof.
  intros Hclaim Hne Hfile.
  unfold serve, upload_single, verify. rewrite Hfile, Hclaim.
  destruct claim as [|c claim]; [done|].
  unfold mbind, M_bind, mret, M_ret; simpl.
  rewrite foldl_on_data; simpl. fold_buffers.
  rewrite on_close_no_file by done. reflexivity.
Qed.

(** A request whose claim is accepted and that carries a file. *)
Lemma serve_accepted_file now r claim u child fs :
  field_original_claim r = Some claim -> claim <> "" ->
  claimImage r = Some u ->
  let p := storage_path now (originalname u) in
  serve cfg now r child fs =
    Run (delete p (<[p := content u]> fs))
      [EvWriteFile p;
       EvLog (LogReceived claim (field_source_identifier r) p);
       EvLog LogStarting;
       EvSpawn "python"
         [main_py cfg; claim; or_else (field_source_identifier r) "N/A"; p]
         (process_env cfg);
       EvLog (LogExited (exit_code child));
       EvUnlink p;
       EvRespond
         (interpret (exit_code child) (stdout_of (output child))
                    (stderr_of (output child))).1
         (interpret (exit_code child) (stdout_of (output child))
                    (stderr_of (output child))).2]
      (Normal tt).
Proof.
  intros Hclaim Hne Hfile p.
  unfold serve, upload_single, verify. rewrite Hfile, Hclaim.
  destruct claim as [|c claim]; [done|].
  unfold mbind, M_bind, mret, M_ret, writeFile; simpl.
  rewrite foldl_on_data; simpl. fold_buffers. fold p.
  erewrite on_close_present; [reflexivity|reflexivity|].
  simpl. apply lookup_insert_eq.
Qed.

#[local] Transparent on_close.

(** A request without claim text: the handler answers and returns. *)
Lemma serve_rejected now r child fs :
  field_original_claim r = None \/ field_original_claim r = Some "" ->
  serve cfg now r child fs =
    match claimImage r with
    | None =>
        Run fs [EvRespond 400 (ErrorBody "Claim text is required." None)]
            (Normal tt)
    | Some u =>
        Run (<[storage_path now (originalname u) := content u]> fs)
            [EvWriteFile (storage_path now (originalname u));
             EvRespond 400 (ErrorBody "Claim text is required." None)]
            (Normal tt)
    end.
Proof.
  intros Hclaim. unfold serve, upload_single, verify.
  destruct (claimImage r) as [u|]; destruct Hclaim as [-> | ->]; reflexivity.
Qed.

(** Every accepted request is answered with what [interpret] yields on the
    exit code and the two accumulated streams. *)
Lemma serve_accepted_responses now r claim child fs :
  field_original_claim r = Some claim -> claim <> "" ->
  responses (emitted (serve cfg now r child fs)) =
    [interpret (exit_code child) (stdout_of (output child))
               (stderr_of (output child))].
Proof.
  intros Hclaim Hne. destruct (claimImage r) as [u|] eqn:Hfile.
  - rewrite (serve_accepted_file now r claim u) by done.
    simpl. by destruct (interpret _ _ _).
  - rewrite (serve_accepted_no_file now r claim) by done.
    simpl. by destruct (interpret _ _ _).
Qed.

End Runs.

(** ** The result interpreter *)

Lemma succeeded_iff code out :
  succeeded code out = true <-> code = Some 0%Z /\ out <> "".
Proof.
  unfold succeeded. rewrite andb_true_iff, bool_decide_eq_true, negb_true_iff.
  by rewrite String.eqb_neq.
Qed.

Lemma succeeded_false_iff code out :
  succeeded code out = false <-> code <> Some 0%Z \/ out = "".
Proof.
  unfold succeeded. rewrite andb_false_iff, bool_decide_eq_false, negb_false_iff.
  by rewrite String.eqb_eq.
Qed.

Lemma interpret_failure `{JSON} code out err :
  code <> Some 0%Z \/ out = "" ->
  interpret code out err = (500%Z, ErrorBody "Agent script failed." (Some err)).
Proof.
  intros Hfail. apply succeeded_false_iff in Hfail.
  unfold interpret. by rewrite Hfail.
Qed.

Lemma interpret_parsed `{JSON} out err v :
  JSON_parse out = Some v ->
  interpret (Some 0%Z) out err = (200%Z, Payload v).
Proof.
  intros Hparse. unfold interpret.
  assert (succeeded (Some 0%Z) out = true) as ->.
  { apply succeeded_iff. split; [done|]. intros ->.
    rewrite JSON_parse_empty in Hparse. done. }
  by rewrite Hparse.
Qed.

Lemma interpret_unparsable `{JSON} out err :
  out <> "" -> JSON_parse out = None ->
  interpret (Some 0%Z) out err =
    (500%Z, ErrorBody "Failed to parse agent result." (Some out)).
Proof.
  intros Hne Hparse. unfold interpret.
  assert (succeeded (Some 0%Z) out = true) as -> by by apply succeeded_iff.
  by rewrite Hparse.
Qed.

(** The [close] listener leaves no file at the staged path, whatever else
    happened to the upload directory while the child ran, and it responds
    only after it has removed the file. *)
Lemma on_close_file_gone `{JSON} code p f fs :
  req_file p = Some f ->
  files (on_close code p fs) !! imagePath p = None /\
  (responses (emitted (on_close code p fs)) <> [] ->
   unlinked (emitted (on_close code p fs)) = [imagePath p]).
Proof.
  intros Hf. destruct (fs !! imagePath p) as [data|] eqn:Hfs.
  - rewrite (on_close_present code p f data) by done. simpl.
    split; [apply lookup_delete_eq|done].
  - rewrite (on_close_missing code p f) by done. simpl. by split.
Qed.

(** The [close] listener of one request leaves every other path alone. *)
Lemma on_close_other_paths `{JSON} code p fs q :
  q <> imagePath p -> files (on_close code p fs) !! q = fs !! q.
Proof.
  intros Hq. destruct (req_file p) as [f|] eqn:Hf.
  - destruct (fs !! imagePath p) as [data|] eqn:Hfs.
    + rewrite (on_close_present code p f data) by done. simpl.
      by apply lookup_delete_ne.
    + by rewrite (on_close_missing code p f) by done.
  - by rewrite on_close_no_file by done.
Qed.

(** * The claims *)

(** ** Validation *)

(** C1, as amended: for every request to [POST /api/verify] whose
    [original_claim] field is absent or the empty string, the route responds
    exactly once, with status 400 and body [{"error": "Claim text is
    required."}], and spawns no child process. *)
Theorem missing_claim_rejected `{JSON} cfg now r child fs :
  field_original_claim r = None \/ field_original_claim r = Some "" ->
  responses (emitted (serve cfg now r child fs)) =
    [(400%Z, ErrorBody "Claim text is required." None)] /\
  spawns (emitted (serve cfg now r child fs)) = [].
Proof.
  intros Hclaim. rewrite (serve_rejected cfg now r child fs Hclaim).
  by destruct (claimImage r).
Qed.

Lemma missing_claim_rejected_witness :
  field_original_claim empty_claim_request = Some "" /\
  responses (emitted (serve demo_config clock empty_claim_request child_ok ∅)) =
    [(400%Z, ErrorBody "Claim text is required." None)] /\
  spawns (emitted (serve demo_config clock empty_claim_request child_ok ∅)) = [].
Proof.
  split; [reflexivity|].
  apply (missing_claim_rejected demo_config clock empty_claim_request child_ok ∅).
  right; reflexivity.
Defined.

(** C1, as stated, fails twice.  A claim of white space only is text like any
    other: the engine is spawned with it and the response is the engine's.
    And an empty claim that comes with an image leaves the image in the
    upload directory, written by the middleware before the handler looked at
    the claim. *)
Lemma blank_claim_is_served :
  (whitespace_only "   " = true /\
   spawns (emitted (serve demo_config clock blank_claim_request child_ok ∅)) =
     [("python", [main_py demo_config; "   "; "N/A"; "null"],
       process_env demo_config)] /\
   responses (emitted (serve demo_config clock blank_claim_request child_ok ∅)) <>
     [(400%Z, ErrorBody "Claim text is required." None)]) /\
  (written (emitted (serve demo_config clock empty_claim_with_image child_ok ∅)) =
     ["uploads/1700000000000.png"] /\
   files (serve demo_config clock empty_claim_with_image child_ok ∅)
     !! "uploads/1700000000000.png" = Some "PNG1").
Proof.
  split; [split; [reflexivity|split; [reflexivity|discriminate]]|].
  split; reflexivity.
Qed.

(** ** Cleanup of the staged file *)

(** C2: for every request that stages an uploaded file and whose engine is
    invoked, whatever the invocation yields (success, failure, output that
    does not parse), the staged file is deleted after the child has closed
    and before the response is sent: the trace ends with the exit-code log
    line of the [close] listener, the deletion, then the one response, and
    the file is no longer in the upload directory. *)
Theorem staged_file_removed_before_response `{JSON} cfg now r claim u child fs :
  field_original_claim r = Some claim -> claim <> "" ->
  claimImage r = Some u ->
  let p := storage_path now (originalname u) in
  let run := serve cfg now r child fs in
  files run !! p = None /\
  exists before status b,
    emitted run =
      (before ++ [EvLog (LogExited (exit_code child)); EvUnlink p;
                  EvRespond status b])%list /\
    written before = [p] /\
    spawns before <> [] /\
    unlinked before = [] /\
    responses before = [].
Proof.
  intros Hclaim Hne Hfile p run. subst run.
  rewrite (serve_accepted_file cfg now r claim u child fs Hclaim Hne Hfile).
  fold p. simpl. split; [apply lookup_delete_eq|].
  eexists [_; _; _; _], _, _. split; [reflexivity|]. done.
Qed.

Lemma staged_file_removed_before_response_witness :
  files (serve demo_config clock sky_request_with_image child_garbled ∅)
    !! "uploads/1700000000000.png" = None /\
  exists before status b,
    emitted (serve demo_config clock sky_request_with_image child_garbled ∅) =
      (before ++ [EvLog (LogExited (Some 0%Z));
                  EvUnlink "uploads/1700000000000.png";
                  EvRespond status b])%list /\
    written before = ["uploads/1700000000000.png"] /\
    spawns before <> [] /\
    unlinked before = [] /\
    responses before = [].
Proof.
  apply (staged_file_removed_before_response demo_config clock
           sky_request_with_image "The sky is green" sky_shot
           child_garbled ∅);
    [reflexivity|discriminate|reflexivity].
Defined.

(** ** Interpretation of the invocation result *)

(** C3: an invocation result is classified as a success exactly when the
    exit code is zero and the accumulated stdout is not empty, and the
    classification decides the response: every other result, and no
    success, is answered with the "Agent script failed." error; on a
    success whose stdout parses as JSON the handler responds 200 with the
    parsed value. *)
Theorem success_iff_zero_exit_and_output `{JSON} cfg now r claim child fs :
  field_original_claim r = Some claim -> claim <> "" ->
  let code := exit_code child in
  let out := stdout_of (output child) in
  let failure :=
    (500%Z, ErrorBody "Agent script failed." (Some (stderr_of (output child)))) in
  (succeeded code out = true <-> code = Some 0%Z /\ out <> "") /\
  (succeeded code out = true <->
     responses (emitted (serve cfg now r child fs)) <> [failure]) /\
  (forall v, succeeded code out = true -> JSON_parse out = Some v ->
     responses (emitted (serve cfg now r child fs)) = [(200%Z, Payload v)]).
Proof.
  intros Hclaim Hne code out failure. split; [apply succeeded_iff|].
  rewrite (serve_accepted_responses cfg now r claim child fs Hclaim Hne).
  fold code out. split.
  - unfold interpret. destruct (succeeded code out) eqn:Hok.
    + split; [intros _|done]. by destruct (JSON_parse out).
    + split; [done|]. intros Hresp. by destruct Hresp.
  - intros v Hok Hparse. apply succeeded_iff in Hok as [Hcode _].
    rewrite Hcode. by rewrite (interpret_parsed out _ v).
Qed.

Lemma success_iff_zero_exit_and_output_witness :
  (succeeded (Some 0%Z) sky_report = true <->
     Some 0%Z = Some 0%Z /\ sky_report <> "") /\
  (succeeded (Some 0%Z) sky_report = true <->
     responses (emitted (serve demo_config clock sky_request child_ok ∅)) <>
       [(500%Z, ErrorBody "Agent script failed." (Some "searching..."))]) /\
  (forall v, succeeded (Some 0%Z) sky_report = true ->
     json_read sky_report = Some v ->
     responses (emitted (serve demo_config clock sky_request child_ok ∅)) =
       [(200%Z, Payload v)]).
Proof.
  exact (success_iff_zero_exit_and_output demo_config clock sky_request
           "The sky is green" child_ok ∅ eq_refl
           ltac:(discriminate)).
Defined.

(** C4: when the engine exits with code zero and a non-empty stdout that is
    not valid JSON, the handler's one response is 500 with body
    [{"error": "Failed to parse agent result.", "details": <stdout>}]. *)
Theorem unparsable_output_is_server_error `{JSON} cfg now r claim child fs :
  field_original_claim r = Some claim -> claim <> "" ->
  exit_code child = Some 0%Z ->
  stdout_of (output child) <> "" ->
  JSON_parse (stdout_of (output child)) = None ->
  responses (emitted (serve cfg now r child fs)) =
    [(500%Z, ErrorBody "Failed to parse agent result."
                       (Some (stdout_of (output child))))].
Proof.
  intros Hclaim Hne Hcode Hout Hparse.
  rewrite (serve_accepted_responses cfg now r claim child fs Hclaim Hne).
  rewrite Hcode. by rewrite interpret_unparsable.
Qed.

Lemma unparsable_output_is_server_error_witness :
  json_read "not json" = None /\
  responses (emitted (serve demo_config clock sky_request child_garbled ∅)) =
    [(500%Z, ErrorBody "Failed to parse agent result." (Some "not json"))].
Proof.
  split; [reflexivity|].
  apply (unparsable_output_is_server_error demo_config clock sky_request
           "The sky is green" child_garbled ∅);
    [reflexivity|discriminate|reflexivity|discriminate|reflexivity].
Defined.

(** C5: when the engine exits with a code other than zero, or leaves stdout
    empty, the handler's one response is 500 with body
    [{"error": "Agent script failed.", "details": <stderr>}]: the details are
    the accumulated stderr whatever it holds, never stdout, and no parser
    has a say in it (the statement holds for every [JSON_parse]). *)
Theorem failed_run_reports_stderr `{JSON} cfg now r claim child fs :
  field_original_claim r = Some claim -> claim <> "" ->
  exit_code child <> Some 0%Z \/ stdout_of (output child) = "" ->
  responses (emitted (serve cfg now r child fs)) =
    [(500%Z, ErrorBody "Agent script failed."
                       (Some (stderr_of (output child))))].
Proof.
  intros Hclaim Hne Hfail.
  rewrite (serve_accepted_responses cfg now r claim child fs Hclaim Hne).
  by rewrite interpret_failure.
Qed.

Lemma failed_run_reports_stderr_witness :
  responses (emitted (serve demo_config clock sky_request child_failed ∅)) =
    [(500%Z, ErrorBody "Agent script failed." (Some "API key missing"))].
Proof.
  apply (failed_run_reports_stderr demo_config clock sky_request
           "The sky is green" child_failed ∅);
    [reflexivity|discriminate|left; discriminate].
Defined.



(** ** Invocation of the engine *)

(** C6: for every request with a non-empty claim the engine is spawned once,
    as [python] with the script path and then exactly three arguments in
    this order: the claim text; the source identifier, or ["N/A"] when the
    field is absent or empty; the path of the staged file, or ["null"] when
    no file was uploaded.  The child's environment is the server's own. *)
Theorem engine_spawned_with_three_arguments `{JSON} cfg now r claim child fs :
  field_original_claim r = Some claim -> claim <> "" ->
  spawns (emitted (serve cfg now r child fs)) =
    [("python",
      [main_py cfg;
       claim;
       match field_source_identifier r with
       | None | Some "" => "N/A"
       | Some source => source
       end;
       match claimImage r with
       | None => "null"
       | Some u => "uploads/" +:+ number_to_string now
                              +:+ extname (originalname u)
       end],
      process_env cfg)].
Proof.
  intros Hclaim Hne. destruct (claimImage r) as [u|] eqn:Hfile.
  - by rewrite (serve_accepted_file cfg now r claim u child fs).
  - by rewrite (serve_accepted_no_file cfg now r claim child fs).
Qed.

Lemma engine_spawned_with_three_arguments_witness :
  spawns (emitted (serve demo_config clock sea_request_with_image child_ok ∅)) =
    [("python",
      ["/srv/claimvery/backend/main.py"; "The sea is red"; "N/A";
       "uploads/1700000000000.png"],
      [("PATH", "/usr/bin"); ("GOOGLE_API_KEY", "k-123")])].
Proof.
  apply (engine_spawned_with_three_arguments demo_config clock
           sea_request_with_image "The sea is red" child_ok ∅);
    [reflexivity|discriminate].
Defined.

(** ** Failure of the cleanup *)

(** C7, as amended: the deletion of the staged file is not guarded.  When
    it fails, the exception leaves the [close] listener at once: the
    listener has logged the exit code and nothing else, and it sends no
    response.  When the deletion succeeds, the client receives the response
    that exit code and output dictate. *)
Theorem cleanup_failure_aborts_close `{JSON} code p f fs :
  req_file p = Some f ->
  (fs !! imagePath p = None ->
   outcome (on_close code p fs) = Throw (ENOENT "unlink" (imagePath p)) /\
   emitted (on_close code p fs) = [EvLog (LogExited code)] /\
   responses (emitted (on_close code p fs)) = []) /\
  (is_Some (fs !! imagePath p) ->
   outcome (on_close code p fs) = Normal tt /\
   responses (emitted (on_close code p fs)) =
     [interpret code (resultData p) (errorData p)]).
Proof.
  intros Hf. split.
  - intros Hfs. by rewrite (on_close_missing code p f) by done.
  - intros [data Hfs]. rewrite (on_close_present code p f data) by done.
    simpl. by destruct (interpret _ _ _).
Qed.

Lemma cleanup_failure_aborts_close_witness :
  ((∅ : gmap string string) !! imagePath staged_pending = None ->
   outcome (on_close (Some 0%Z) staged_pending ∅) =
     Throw (ENOENT "unlink" "uploads/1700000000000.png") /\
   emitted (on_close (Some 0%Z) staged_pending ∅) =
     [EvLog (LogExited (Some 0%Z))] /\
   responses (emitted (on_close (Some 0%Z) staged_pending ∅)) = []) /\
  (is_Some ((∅ : gmap string string) !! imagePath staged_pending) ->
   outcome (on_close (Some 0%Z) staged_pending ∅) = Normal tt /\
   responses (emitted (on_close (Some 0%Z) staged_pending ∅)) =
     [interpret (Some 0%Z) (resultData staged_pending)
                (errorData staged_pending)]).
Proof.
  apply (cleanup_failure_aborts_close (Some 0%Z) staged_pending
           {| file_originalname := "shot.png";
              filename := "1700000000000.png";
              path := "uploads/1700000000000.png" |} ∅).
  reflexivity.
Defined.

(** C7, as stated, fails: two uploads staged in the same millisecond share
    one path; the first request's cleanup removes the file, the second
    request's cleanup fails, and the second client, whose engine exited
    with 1, never receives the 500 that this outcome dictates.  Nothing
    about the failed deletion is logged. *)
Lemma failed_cleanup_leaves_client_unanswered :
  let run := serve_overlapped demo_config
               clock sky_request_with_image child_ok
               clock sea_request_with_image child_failed ∅ in
  outcome run = Throw (ENOENT "unlink" "uploads/1700000000000.png") /\
  responses (emitted run) =
    [(200%Z, Payload (JObject [("final_verdict", JString "False");
                               ("verdict_explanation", JString "...");
                               ("detailed_sources", JArray [])]))] /\
  omap (fun e => match e with EvLog l => Some l | _ => None end) (emitted run) =
    [LogReceived "The sky is green" (Some "https://example.org/sky")
                 "uploads/1700000000000.png";
     LogStarting;
     LogReceived "The sea is red" (Some "") "uploads/1700000000000.png";
     LogStarting;
     LogExited (Some 0%Z);
     LogExited (Some 1%Z)].
Proof. repeat split; reflexivity. Qed.

(** ** Names of staged files *)

(** C8, as amended: a staged file is named by the millisecond clock reading
    at staging time followed by the extension of the original name; two
    uploads staged at different clock readings get different names and
    paths, whatever their original names, and then the cleanup of one
    request leaves the other request's file in place. *)
Theorem distinct_clock_distinct_files `{JSON} now1 now2 name1 name2 :
  now1 <> now2 ->
  storage_filename now1 name1 = number_to_string now1 +:+ extname name1 /\
  storage_filename now1 name1 <> storage_filename now2 name2 /\
  storage_path now1 name1 <> storage_path now2 name2 /\
  forall code p fs,
    imagePath p = storage_path now1 name1 ->
    files (on_close code p fs) !! storage_path now2 name2 =
      fs !! storage_path now2 name2.
Proof.
  intros Hclock. split; [reflexivity|].
  split; [intros Heq; by apply storage_filename_clock in Heq|].
  assert (storage_path now1 name1 <> storage_path now2 name2) as Hpath.
  { intros Heq; by apply storage_path_clock in Heq. }
  split; [done|].
  intros code p fs Himg. apply on_close_other_paths. by rewrite Himg.
Qed.

Lemma distinct_clock_distinct_files_witness :
  storage_filename 1700000000000 "shot.png" = "1700000000000.png" /\
  storage_filename 1700000000000 "shot.png" <>
    storage_filename 1700000000001 "shot.png" /\
  storage_path 1700000000000 "shot.png" <>
    storage_path 1700000000001 "shot.png" /\
  forall code p fs,
    imagePath p = storage_path 1700000000000 "shot.png" ->
    files (on_close code p fs) !! storage_path 1700000000001 "shot.png" =
      fs !! storage_path 1700000000001 "shot.png".
Proof.
  apply (distinct_clock_distinct_files
           1700000000000 1700000000001 "shot.png" "shot.png").
  discriminate.
Defined.

(** C8, as stated, fails: two uploads named [shot.png] staged in the same
    millisecond get the same file name.  The second write replaces the
    first; the first request's cleanup then deletes the file the second
    request staged, and the second request's own cleanup finds nothing. *)
Lemma same_millisecond_same_name :
  storage_filename clock (originalname sky_shot) = "1700000000000.png" /\
  storage_filename clock (originalname sea_shot) = "1700000000000.png" /\
  let run := serve_overlapped demo_config
               clock sky_request_with_image child_garbled
               clock sea_request_with_image child_ok ∅ in
  written (emitted run) =
    ["uploads/1700000000000.png"; "uploads/1700000000000.png"] /\
  unlinked (emitted run) = ["uploads/1700000000000.png"] /\
  files run !! "uploads/1700000000000.png" = None /\
  outcome run = Throw (ENOENT "unlink" "uploads/1700000000000.png").
Proof. repeat split; reflexivity. Qed.

(** ** Determinism *)

(** C10, as amended: the response is a function of the claim, of whether
    a file came with it, of the exit code and of the two texts the
    listeners have accumulated.  Two requests with the same claim, the same
    source identifier and the same file presence, whose children end with
    the same exit code and whose stdout and stderr chunks, each decoded as
    it arrives, add up to the same two texts, get the same status and the
    same body; clock, file name, file content and the state of the upload
    directory do not enter. *)
Theorem response_deterministic `{JSON} cfg1 cfg2 now1 now2 r1 r2
    child1 child2 fs1 fs2 :
  field_original_claim r1 = field_original_claim r2 ->
  field_source_identifier r1 = field_source_identifier r2 ->
  (is_Some (claimImage r1) <-> is_Some (claimImage r2)) ->
  exit_code child1 = exit_code child2 ->
  stdout_of (output child1) = stdout_of (output child2) ->
  stderr_of (output child1) = stderr_of (output child2) ->
  responses (emitted (serve cfg1 now1 r1 child1 fs1)) =
    responses (emitted (serve cfg2 now2 r2 child2 fs2)).
Proof.
  intros Hclaim _ _ Hcode Hout Herr.
  destruct (field_original_claim r1) as [[|c claim]|] eqn:Hc1; symmetry in Hclaim.
  - rewrite !serve_rejected by auto.
    by destruct (claimImage r1), (claimImage r2).
  - rewrite (serve_accepted_responses cfg1 now1 r1 (String c claim)) by done.
    rewrite (serve_accepted_responses cfg2 now2 r2 (String c claim)) by done.
    by rewrite Hcode, Hout, Herr.
  - rewrite !serve_rejected by auto.
    by destruct (claimImage r1), (claimImage r2).
Qed.

Lemma response_deterministic_witness :
  responses (emitted (serve demo_config 1700000000000 sky_request_with_image
                        child_ok ∅)) =
  responses (emitted (serve demo_config 1700000000555 sky_request_with_photo
                        child_ok_rechunked
                        {[ "uploads/1699999999999.gif" := "GIF8" ]})).
Proof.
  apply (response_deterministic demo_config demo_config
           1700000000000 1700000000555
           sky_request_with_image sky_request_with_photo
           child_ok child_ok_rechunked
           ∅ {[ "uploads/1699999999999.gif" := "GIF8" ]});
    try reflexivity.
  split; intros _; eexists; reflexivity.
Defined.

(** C10, as stated, fails: the same bytes on stdout, with the same exit
    code and the same stderr, get different responses when a chunk
    boundary falls inside a character.  The JSON string with the letter
    e-acute arrives whole in one run; in the other the boundary falls
    between the two bytes of the letter, each half is decoded to a
    replacement character, and the document sent back is another one. *)
Lemma same_bytes_other_chunks_other_response :
  exit_code child_accent_whole = exit_code child_accent_split /\
  stdout_bytes_of (output child_accent_whole) =
    stdout_bytes_of (output child_accent_split) /\
  stderr_bytes_of (output child_accent_whole) =
    stderr_bytes_of (output child_accent_split) /\
  responses (emitted (serve demo_config clock sky_request child_accent_whole ∅)) =
    [(200%Z, Payload (JString accent))] /\
  responses (emitted (serve demo_config clock sky_request child_accent_split ∅)) =
    [(200%Z, Payload (JString (replacement_character +:+
                               replacement_character)))] /\
  responses (emitted (serve demo_config clock sky_request child_accent_whole ∅)) <>
    responses (emitted (serve demo_config clock sky_request child_accent_split ∅)).
Proof.
  assert (responses (emitted (serve demo_config clock sky_request
                                child_accent_whole ∅)) =
          [(200%Z, Payload (JString accent))]) as Hwhole by reflexivity.
  assert (responses (emitted (serve demo_config clock sky_request
                                child_accent_split ∅)) =
          [(200%Z, Payload (JString (replacement_character +:+
                                     replacement_character)))])
    as Hsplit by reflexivity.
  split; [reflexivity|]. split; [reflexivity|]. split; [reflexivity|].
  split; [exact Hwhole|]. split; [exact Hsplit|].
  rewrite Hwhole, Hsplit. intros Heq.
  assert (accent = replacement_character +:+ replacement_character) as Hs
    by congruence.
  vm_compute in Hs. discriminate Hs.
Qed.

(** * Further observations *)

(** The upload of a rejected request stays in the upload directory: the
    middleware has written it before the handler returns early, and only
    the [close] listener ever deletes. *)
Lemma rejected_upload_stays `{JSON} cfg now r u child fs :
  field_original_claim r = None \/ field_original_claim r = Some "" ->
  claimImage r = Some u ->
  files (serve cfg now r child fs) !! storage_path now (originalname u) =
    Some (content u) /\
  unlinked (emitted (serve cfg now r child fs)) = [].
Proof.
  intros Hclaim Hfile. rewrite (serve_rejected cfg now r child fs Hclaim).
  rewrite Hfile. simpl. split; [apply lookup_insert_eq|done].
Qed.

(** A source identifier of white space only is passed on as it is. *)
Example blank_source_passed_on :
  spawns (emitted (serve demo_config clock
            {| field_original_claim := Some "The sky is green";
               field_source_identifier := Some "  ";
               claimImage := None |} child_ok ∅)) =
    [("python", [main_py demo_config; "The sky is green"; "  "; "null"],
      process_env demo_config)].
Proof. reflexivity. Qed.

(** ** The scenarios of the specification, on the reference reader *)

(** Scenario A: claim alone, engine exits 0 with a JSON report: 200 with
    that document, upload directory untouched. *)
Example scenario_A :
  responses (emitted (serve demo_config clock sky_request child_ok ∅)) =
    [(200%Z, Payload (JObject [("final_verdict", JString "False");
                               ("verdict_explanation", JString "...");
                               ("detailed_sources", JArray [])]))] /\
  files (serve demo_config clock sky_request child_ok ∅) = ∅ /\
  written (emitted (serve demo_config clock sky_request child_ok ∅)) = [].
Proof. repeat split; reflexivity. Qed.

(** Scenario B: empty claim: 400. *)
Example scenario_B :
  responses (emitted (serve demo_config clock empty_claim_request child_ok ∅)) =
    [(400%Z, ErrorBody "Claim text is required." None)].
Proof. reflexivity. Qed.

(** Scenario C: engine exits 1 with ["API key missing"] on stderr. *)
Example scenario_C :
  responses (emitted (serve demo_config clock sky_request child_failed ∅)) =
    [(500%Z, ErrorBody "Agent script failed." (Some "API key missing"))].
Proof. reflexivity. Qed.

(** Scenario D: engine exits 0 with ["not json"] on stdout. *)
Example scenario_D :
  responses (emitted (serve demo_config clock sky_request child_garbled ∅)) =
    [(500%Z, ErrorBody "Failed to parse agent result." (Some "not json"))].
Proof. reflexivity. Qed.

(** Scenario E: file uploaded, engine exits 0: the path is gone afterwards. *)
Example scenario_E :
  files (serve demo_config clock sky_request_with_image child_ok ∅)
    !! "uploads/1700000000000.png" = None /\
  unlinked (emitted (serve demo_config clock sky_request_with_image child_ok ∅)) =
    ["uploads/1700000000000.png"].
Proof. split; reflexivity. Qed.

(** Documents of every kind pass through: [null], a number, a string, an
    array, an object without any field of a report. *)
Example any_document_passes_through :
  let reply text :=
    responses (emitted (serve demo_config clock sky_request
                          {| output := [Stdout text]; exit_code := Some 0%Z |} ∅)) in
  reply "null" = [(200%Z, Payload JNull)] /\
  reply "42" = [(200%Z, Payload (JNumber "42"))] /\
  reply (quoted "maybe") = [(200%Z, Payload (JString "maybe"))] /\
  reply "[]" = [(200%Z, Payload (JArray []))] /\
  reply "{}" = [(200%Z, Payload (JObject []))].
Proof. repeat split; reflexivity. Qed.

(** A child ended by a signal has no exit code and counts as failed, even
    with a complete report on stdout. *)
Example signalled_child_fails :
  responses (emitted (serve demo_config clock sky_request
                        {| output := [Stdout sky_report; Stderr "killed"];
                           exit_code := None |} ∅)) =
    [(500%Z, ErrorBody "Agent script failed." (Some "killed"))].
Proof. reflexivity. Qed.

(** Whatever state the upload directory is in when the child closes, the
    [close] listener either sends nothing (its cleanup threw) or sends what
    [interpret] yields: two listeners that do respond to the same exit code
    and buffers send the same response. *)
Lemma on_close_responses `{JSON} code p fs :
  responses (emitted (on_close code p fs)) = [] \/
  responses (emitted (on_close code p fs)) =
    [interpret code (resultData p) (errorData p)].
Proof.
  destruct (req_file p) as [f|] eqn:Hf.
  - destruct (fs !! imagePath p) as [data|] eqn:Hfs.
    + right. rewrite (on_close_present code p f data) by done.
      simpl. by destruct (interpret _ _ _).
    + left. by rewrite (on_close_missing code p f) by done.
  - right. rewrite on_close_no_file by done.
    simpl. by destruct (interpret _ _ _).
Qed.

(** * Beyond the claims *)

(** ** Responses of a request served alone *)

Lemma interpret_cases `{JSON} code out err :
  (exists v, code = Some 0%Z /\ out <> "" /\ JSON_parse out = Some v /\
             interpret code out err = (200%Z, Payload v)) \/
  (code = Some 0%Z /\ out <> "" /\ JSON_parse out = None /\
   interpret code out err =
     (500%Z, ErrorBody "Failed to parse agent result." (Some out))) \/
  ((code <> Some 0%Z \/ out = "") /\
   interpret code out err =
     (500%Z, ErrorBody "Agent script failed." (Some err))).
Proof.
  unfold interpret. destruct (succeeded code out) eqn:Hok.
  - apply succeeded_iff in Hok as [-> Hout].
    destruct (JSON_parse out) as [v|] eqn:Hparse; [left; eauto|right; left; eauto].
  - apply succeeded_false_iff in Hok. right; right; eauto.
Qed.

Lemma serve_accepted_outcome `{JSON} cfg now r claim child fs :
  field_original_claim r = Some claim -> claim <> "" ->
  outcome (serve cfg now r child fs) = Normal tt.
Proof.
  intros Hclaim Hne. destruct (claimImage r) as [u|] eqn:Hfile.
  - by rewrite (serve_accepted_file cfg now r claim u) by done.
  - by rewrite (serve_accepted_no_file cfg now r claim) by done.
Qed.

Lemma serve_rejected_responses `{JSON} cfg now r child fs :
  field_original_claim r = None \/ field_original_claim r = Some "" ->
  outcome (serve cfg now r child fs) = Normal tt /\
  responses (emitted (serve cfg now r child fs)) =
    [(400%Z, ErrorBody "Claim text is required." None)].
Proof.
  intros Hclaim. rewrite (serve_rejected cfg now r child fs Hclaim).
  by destruct (claimImage r).
Qed.

(** Either the claim is missing or it is a non-empty text. *)
Lemma claim_cases (r : http_request) :
  (field_original_claim r = None \/ field_original_claim r = Some "") \/
  (exists claim, field_original_claim r = Some claim /\ claim <> "").
Proof.
  destruct (field_original_claim r) as [[|c claim]|]; [by left; right| |by left; left].
  right. by exists (String c claim).
Qed.

(** A child that closes is the case the earlier runs describe. *)
Lemma serve_engine_closes `{JSON} cfg now r child fs :
  serve_engine cfg now r (EngineCloses child) fs = serve cfg now r child fs.
Proof. reflexivity. Qed.

(** Without a claim the engine plays no part. *)
Lemma serve_engine_rejected `{JSON} cfg now r e child fs :
  field_original_claim r = None \/ field_original_claim r = Some "" ->
  serve_engine cfg now r e fs = serve cfg now r child fs.
Proof.
  intros Hmiss. unfold serve_engine, serve, upload_single, verify.
  destruct (claimImage r); destruct Hmiss as [-> | ->]; reflexivity.
Qed.

(** An accepted request whose child does not close: the trace ends with
    the spawn, and the staged file is where the middleware put it. *)
Lemma serve_engine_no_close `{JSON} cfg now r claim e fs :
  field_original_claim r = Some claim -> claim <> "" ->
  (forall child, e <> EngineCloses child) ->
  let image := match claimImage r with
               | Some u => storage_path now (originalname u)
               | None => "null"
               end in
  serve_engine cfg now r e fs =
    Run match claimImage r with
        | Some u => <[storage_path now (originalname u) := content u]> fs
        | None => fs
        end
        (match claimImage r with
         | Some u => [EvWriteFile (storage_path now (originalname u))]
         | None => []
         end ++
         [EvLog (LogReceived claim (field_source_identifier r) image);
          EvLog LogStarting;
          EvSpawn "python"
            [main_py cfg; claim; or_else (field_source_identifier r) "N/A"; image]
            (process_env cfg)])
        match e with
        | EngineFailsToStart => Throw (ENOENT "spawn python" "python")
        | _ => Normal tt
        end.
Proof.
  intros Hclaim Hne He image. subst image.
  unfold serve_engine, upload_single, verify. rewrite Hclaim.
  destruct claim as [|c claim]; [done|].
  destruct (claimImage r) as [u|];
    destruct e as [child| |out]; try (by destruct (He child)); reflexivity.
Qed.

(** X1: when a request is answered.  Without a claim it is answered at
    once with the 400, whatever the engine.  With a claim and a child that
    starts and closes it is answered exactly once, with a 200 that carries
    a parsed document or a 500 with one of the two engine messages and
    details, and the handler does not throw.  With a child that cannot be
    started nothing is sent: the [error] event has no listener and is
    thrown, and the staged file is not removed.  With a child that never
    closes nothing is sent and nothing removed either. *)
Theorem request_answered_when_engine_closes `{JSON} cfg now r e fs :
  let run := serve_engine cfg now r e fs in
  ((field_original_claim r = None \/ field_original_claim r = Some "") ->
   outcome run = Normal tt /\
   responses (emitted run) =
     [(400%Z, ErrorBody "Claim text is required." None)]) /\
  ((exists claim, field_original_claim r = Some claim /\ claim <> "") ->
   match e with
   | EngineCloses child =>
       outcome run = Normal tt /\
       exists status b,
         responses (emitted run) = [(status, b)] /\
         ((status = 200%Z /\ exists v, b = Payload v) \/
          (status = 500%Z /\
           exists d, b = ErrorBody "Failed to parse agent result." (Some d) \/
                     b = ErrorBody "Agent script failed." (Some d)))
   | EngineFailsToStart =>
       outcome run = Throw (ENOENT "spawn python" "python") /\
       responses (emitted run) = [] /\ unlinked (emitted run) = [] /\
       forall u, claimImage r = Some u ->
                 files run !! storage_path now (originalname u) = Some (content u)
   | EngineNeverCloses _ =>
       outcome run = Normal tt /\
       responses (emitted run) = [] /\ unlinked (emitted run) = [] /\
       forall u, claimImage r = Some u ->
                 files run !! storage_path now (originalname u) = Some (content u)
   end).
Proof.
  intros run. subst run. split.
  - intros Hmiss.
    rewrite (serve_engine_rejected cfg now r e {| output := []; exit_code := None |})
      by done.
    by apply serve_rejected_responses.
  - intros (claim & Hclaim & Hne). destruct e as [child| |out].
    + rewrite serve_engine_closes.
      rewrite (serve_accepted_outcome cfg now r claim) by done.
      rewrite (serve_accepted_responses cfg now r claim) by done.
      split; [done|].
      destruct (interpret_cases (exit_code child) (stdout_of (output child))
                  (stderr_of (output child)))
        as [(v & _ & _ & _ & ->)|[(_ & _ & _ & ->)|(_ & ->)]];
        eexists _, _; (split; [done|]); eauto 10.
    + rewrite (serve_engine_no_close cfg now r claim) by done.
      destruct (claimImage r) as [u|]; simpl; repeat split; try done.
      intros ? [= <-]. apply lookup_insert_eq.
    + rewrite (serve_engine_no_close cfg now r claim) by done.
      destruct (claimImage r) as [u|]; simpl; repeat split; try done.
      intros ? [= <-]. apply lookup_insert_eq.
Qed.

Lemma request_answered_when_engine_closes_witness :
  outcome (serve_engine demo_config clock sky_request_with_image
             EngineFailsToStart ∅) =
    Throw (ENOENT "spawn python" "python") /\
  responses (emitted (serve_engine demo_config clock sky_request_with_image
                        EngineFailsToStart ∅)) = [] /\
  files (serve_engine demo_config clock sky_request_with_image
           EngineFailsToStart ∅)
    !! storage_path clock (originalname sky_shot) = Some (content sky_shot).
Proof.
  destruct (request_answered_when_engine_closes (H := reference_json)
              demo_config clock sky_request_with_image EngineFailsToStart ∅)
    as [_ Hstart].
  destruct Hstart as (Hout & Hsent & _ & Hfile).
  { eexists. split; [reflexivity|discriminate]. }
  split; [exact Hout|]. split; [exact Hsent|].
  apply Hfile. reflexivity.
Defined.

(** X2: the status code tells the cause.  It is 400 exactly when the claim
    is absent or empty; 200 exactly when the claim is there, the engine
    exited with 0 and its stdout parses; 500 exactly when the claim is
    there and the engine exited otherwise or its stdout does not parse. *)
Theorem status_tells_cause `{JSON} cfg now r child fs :
  let status := fst <$> received (emitted (serve cfg now r child fs)) in
  let claimed := exists claim, field_original_claim r = Some claim /\ claim <> "" in
  let out := stdout_of (output child) in
  (status = Some 400%Z <-> ~ claimed) /\
  (status = Some 200%Z <->
     claimed /\ exit_code child = Some 0%Z /\ is_Some (JSON_parse out)) /\
  (status = Some 500%Z <->
     claimed /\ (exit_code child <> Some 0%Z \/ JSON_parse out = None)).
Proof.
  intros status claimed out. subst status. unfold received.
  destruct (claim_cases r) as [Hmiss|(claim & Hclaim & Hne)].
  - destruct (serve_rejected_responses cfg now r child fs Hmiss) as [_ ->].
    assert (~ claimed) as Hno.
    { intros (c & Hc & Hn). destruct Hmiss as [Hm|Hm]; congruence. }
    simpl. repeat split; try done; intros; try tauto; naive_solver.
  - assert claimed as Hyes by by exists claim.
    rewrite (serve_accepted_responses cfg now r claim) by done.
    fold out.
    destruct (interpret_cases (exit_code child) out (stderr_of (output child)))
      as [(v & Hc & Ho & Hp & ->)|[(Hc & Ho & Hp & ->)|(Hf & ->)]]; simpl.
    + assert (is_Some (JSON_parse out)) by (rewrite Hp; by eexists).
      split; [naive_solver|]. split; [naive_solver|].
      split; [done|]. intros (_ & [?|?]); congruence.
    + split; [naive_solver|]. split; [|naive_solver].
      split; [done|]. intros (_ & _ & [? ?]); congruence.
    + assert (exit_code child <> Some 0%Z \/ JSON_parse out = None) as Hf'.
      { destruct Hf as [? | ->]; [by left|right; apply JSON_parse_empty]. }
      split; [naive_solver|]. split; [|naive_solver].
      split; [done|]. intros (_ & Hz & [v Hv]). destruct Hf'; congruence.
Qed.

(** ** The upload directory *)

(** X3: the whole effect of one request on the upload directory.  Without
    a file the directory is left as it was.  With a file and an accepted
    claim the staged path is absent afterwards and every other entry is as
    before, so a file that already had that name is lost.  With a file and
    a missing claim the upload stays behind under the staged path, and the
    route deletes nothing. *)
Theorem upload_directory_after_serve `{JSON} cfg now r child fs :
  files (serve cfg now r child fs) =
    match claimImage r with
    | None => fs
    | Some u =>
        match field_original_claim r with
        | None | Some "" => <[storage_path now (originalname u) := content u]> fs
        | Some _ => delete (storage_path now (originalname u)) fs
        end
    end /\
  (forall q, (forall u, claimImage r = Some u ->
                        q <> storage_path now (originalname u)) ->
     files (serve cfg now r child fs) !! q = fs !! q) /\
  ((field_original_claim r = None \/ field_original_claim r = Some "") ->
   unlinked (emitted (serve cfg now r child fs)) = []).
Proof.
  destruct (claim_cases r) as [Hmiss|(claim & Hclaim & Hne)].
  - rewrite (serve_rejected cfg now r child fs Hmiss).
    destruct (claimImage r) as [u|] eqn:Hfile; simpl.
    + split; [by destruct Hmiss as [-> | ->]|]. split; [|done].
      intros q Hq. apply lookup_insert_ne. by intros <-; eapply Hq.
    + done.
  - destruct (claimImage r) as [u|] eqn:Hfile.
    + rewrite (serve_accepted_file cfg now r claim u) by done. simpl.
      rewrite delete_insert_eq. rewrite Hclaim.
      split; [by destruct claim|]. split.
      * intros q Hq. apply lookup_delete_ne. by intros <-; eapply Hq.
      * intros [?|?]; congruence.
    + rewrite (serve_accepted_no_file cfg now r claim) by done. simpl.
      split; [done|]. split; [done|]. intros [?|?]; congruence.
Qed.

(** ** The stream buffers *)

Lemma utf8_decode_ascii (s : string) :
  all_ascii s = true -> utf8_decode 0 128 191 "" s = s.
Proof.
  induction s as [|b s IH]; [done|].
  intros [Hb Hs]%andb_prop. cbn [utf8_decode]. unfold utf8_lead.
  rewrite Hb. by rewrite IH.
Qed.

Lemma Buffer_toString_ascii (s : string) :
  all_ascii s = true -> Buffer_toString s = s.
Proof. apply utf8_decode_ascii. Qed.

(** ASCII bytes in front are decoded to themselves and do not touch what
    follows. *)
Lemma Buffer_toString_ascii_app (a rest : string) :
  all_ascii a = true ->
  Buffer_toString (a +:+ rest) = a +:+ Buffer_toString rest.
Proof.
  unfold Buffer_toString. induction a as [|b a IH]; [done|].
  intros [Hb Ha]%andb_prop. rewrite !append_cons.
  cbn [utf8_decode]. unfold utf8_lead. rewrite Hb. by rewrite IH.
Qed.

(** X4: output made of ASCII characters is accumulated exactly.  When
    every chunk of a stream holds ASCII bytes only, the buffer of that
    stream after any sequence of chunks is what it held before followed by
    the bytes the child wrote to the stream, in order, however the output
    was cut into chunks and however the two streams were interleaved. *)
Theorem ascii_output_accumulated_exactly `{JSON} p evs :
  (forall d, Stdout d ∈ evs -> all_ascii d = true) ->
  (forall d, Stderr d ∈ evs -> all_ascii d = true) ->
  resultData (foldl on_data p evs) = resultData p +:+ stdout_bytes_of evs /\
  errorData (foldl on_data p evs) = errorData p +:+ stderr_bytes_of evs.
Proof.
  intros Hout Herr. rewrite foldl_on_data; simpl.
  assert (stdout_of evs = stdout_bytes_of evs) as ->.
  { induction evs as [|[d|d] evs IH]; simpl; [done| |].
    - rewrite Buffer_toString_ascii by (apply Hout; left).
      rewrite IH; [done| |]; intros; [apply Hout|apply Herr]; by right.
    - apply IH; intros; [apply Hout|apply Herr]; by right. }
  assert (stderr_of evs = stderr_bytes_of evs) as ->.
  { induction evs as [|[d|d] evs IH]; simpl; [done| |].
    - apply IH; intros; [apply Hout|apply Herr]; by right.
    - rewrite Buffer_toString_ascii by (apply Herr; left).
      rewrite IH; [done| |]; intros; [apply Hout|apply Herr]; by right. }
  done.
Qed.

Lemma ascii_output_accumulated_exactly_witness :
  resultData (foldl on_data staged_pending (output child_ok)) =
    resultData staged_pending +:+ stdout_bytes_of (output child_ok) /\
  errorData (foldl on_data staged_pending (output child_ok)) =
    errorData staged_pending +:+ stderr_bytes_of (output child_ok).
Proof.
  apply (ascii_output_accumulated_exactly staged_pending (output child_ok)).
  - intros d Hd. cbn in Hd.
    apply elem_of_cons in Hd as [Hd|Hd]; [injection Hd as ->; reflexivity|].
    apply elem_of_cons in Hd as [Hd|Hd]; [discriminate Hd|].
    apply elem_of_cons in Hd as [Hd|Hd]; [injection Hd as ->; reflexivity|].
    by apply elem_of_nil in Hd.
  - intros d Hd. cbn in Hd.
    apply elem_of_cons in Hd as [Hd|Hd]; [discriminate Hd|].
    apply elem_of_cons in Hd as [Hd|Hd]; [injection Hd as ->; reflexivity|].
    apply elem_of_cons in Hd as [Hd|Hd]; [discriminate Hd|].
    by apply elem_of_nil in Hd.
Defined.

(** X12: a character cut in two by a chunk boundary is lost.  A two-byte
    UTF-8 sequence between ASCII texts is kept when it arrives in one
    chunk; when the boundary falls between its bytes, each half is decoded
    on its own and the buffer holds two replacement characters in its
    place. *)
Theorem split_character_is_replaced `{JSON} (a b : string) (lead cont : ascii) p :
  all_ascii a = true -> all_ascii b = true ->
  194 <= nat_of_ascii lead <= 223 -> 128 <= nat_of_ascii cont <= 191 ->
  resultData (on_stdout (a +:+ String lead (String cont b)) p) =
    resultData p +:+ a +:+ String lead (String cont b) /\
  resultData (on_stdout (String cont b) (on_stdout (a +:+ String lead "") p)) =
    resultData p +:+ a +:+ replacement_character +:+ replacement_character +:+ b.
Proof.
  intros Ha Hb Hlead Hcont. simpl.
  assert ((nat_of_ascii lead <=? 127)%nat = false) as Hl1 by (apply Nat.leb_gt; lia).
  assert (((194 <=? nat_of_ascii lead) && (nat_of_ascii lead <=? 223))%nat = true)
    as Hl2 by (apply andb_true_intro; split; apply Nat.leb_le; lia).
  assert ((nat_of_ascii cont <=? 127)%nat = false) as Hc1 by (apply Nat.leb_gt; lia).
  assert (((128 <=? nat_of_ascii cont) && (nat_of_ascii cont <=? 191))%nat = true)
    as Hc2 by (apply andb_true_intro; split; apply Nat.leb_le; lia).
  assert ((194 <=? nat_of_ascii cont)%nat = false) as Hc3 by (apply Nat.leb_gt; lia).
  assert ((224 <=? nat_of_ascii cont)%nat = false) as Hc4 by (apply Nat.leb_gt; lia).
  assert ((240 <=? nat_of_ascii cont)%nat = false) as Hc5 by (apply Nat.leb_gt; lia).
  split.
  - f_equal. rewrite Buffer_toString_ascii_app by done. f_equal.
    unfold Buffer_toString. cbn [utf8_decode]. unfold utf8_lead.
    rewrite Hl1, Hl2. cbn [utf8_decode]. rewrite Hc2.
    rewrite utf8_decode_ascii by done. reflexivity.
  - rewrite append_assoc. f_equal.
    rewrite Buffer_toString_ascii_app by done. rewrite append_assoc. f_equal.
    assert (Buffer_toString (String lead "") = replacement_character) as ->.
    { unfold Buffer_toString. cbn [utf8_decode]. unfold utf8_lead.
      by rewrite Hl1, Hl2. }
    f_equal. unfold Buffer_toString. cbn [utf8_decode]. unfold utf8_lead.
    rewrite Hc1, Hc3, Hc4, Hc5. simpl.
    rewrite utf8_decode_ascii by done. reflexivity.
Qed.

Lemma split_character_is_replaced_witness :
  resultData (on_stdout ("caf" +:+ String (ascii_of_nat 195)
                           (String (ascii_of_nat 169) "!")) staged_pending) =
    resultData staged_pending +:+ "caf" +:+
      String (ascii_of_nat 195) (String (ascii_of_nat 169) "!") /\
  resultData (on_stdout (String (ascii_of_nat 169) "!")
                (on_stdout ("caf" +:+ String (ascii_of_nat 195) "")
                   staged_pending)) =
    resultData staged_pending +:+ "caf" +:+ replacement_character +:+
      replacement_character +:+ "!".
Proof.
  apply (split_character_is_replaced "caf" "!" (ascii_of_nat 195)
           (ascii_of_nat 169) staged_pending);
    first [reflexivity | vm_compute; lia].
Defined.

(** ** The engine's arguments *)

Lemma or_else_nonempty x d : d <> "" -> or_else x d <> "".
Proof. intros Hd. by destruct x as [[|c s]|]. Qed.

Lemma storage_path_prefix now name :
  storage_path now name = "uploads/" +:+ storage_filename now name.
Proof. reflexivity. Qed.

(** X5: no positional argument of the engine is ever the empty string: the
    claim is non-empty or nothing is spawned, an empty source identifier is
    replaced by the sentinel, and the image argument is the sentinel or a
    path under [uploads/]. *)
Theorem engine_arguments_never_empty `{JSON} cfg now r child fs command args env :
  (command, args, env) ∈ spawns (emitted (serve cfg now r child fs)) ->
  exists claim source image,
    args = [main_py cfg; claim; source; image] /\
    claim <> "" /\ source <> "" /\ image <> "".
Proof.
  intros Hin. destruct (claim_cases r) as [Hmiss|(claim & Hclaim & Hne)].
  - rewrite (serve_rejected cfg now r child fs Hmiss) in Hin.
    destruct (claimImage r); simpl in Hin; by apply elem_of_nil in Hin.
  - destruct (claimImage r) as [u|] eqn:Hfile.
    + rewrite (serve_accepted_file cfg now r claim u) in Hin by done.
      simpl in Hin. apply list_elem_of_singleton in Hin. injection Hin as -> -> ->.
      eexists _, _, _. split; [done|]. split; [done|].
      split; [by apply or_else_nonempty|done].
    + rewrite (serve_accepted_no_file cfg now r claim) in Hin by done.
      simpl in Hin. apply list_elem_of_singleton in Hin. injection Hin as -> -> ->.
      eexists _, _, _. split; [done|]. split; [done|].
      split; [by apply or_else_nonempty|done].
Qed.

(** X6: what the sentinels tell the engine.  The image argument is ["null"]
    exactly when no file was uploaded, since a staged path starts with
    [uploads/].  The source argument is ["N/A"] when the field is absent,
    when it is empty, and also when the user typed [N/A]: the engine cannot
    tell these apart. *)
Theorem sentinels_of_engine_arguments `{JSON} cfg now r claim child fs :
  field_original_claim r = Some claim -> claim <> "" ->
  exists source image,
    spawns (emitted (serve cfg now r child fs)) =
      [("python", [main_py cfg; claim; source; image], process_env cfg)] /\
    (image = "null" <-> claimImage r = None) /\
    (source = "N/A" <->
       field_source_identifier r = None \/
       field_source_identifier r = Some "" \/
       field_source_identifier r = Some "N/A").
Proof.
  intros Hclaim Hne.
  assert (or_else (field_source_identifier r) "N/A" = "N/A" <->
          field_source_identifier r = None \/
          field_source_identifier r = Some "" \/
          field_source_identifier r = Some "N/A") as Hsource.
  { destruct (field_source_identifier r) as [[|c s]|]; simpl;
      intuition congruence. }
  destruct (claimImage r) as [u|] eqn:Hfile.
  - rewrite (serve_accepted_file cfg now r claim u) by done.
    eexists _, _. split; [reflexivity|]. split; [|done].
    rewrite storage_path_prefix. split; intros; discriminate.
  - rewrite (serve_accepted_no_file cfg now r claim) by done.
    eexists _, _. split; [reflexivity|]. by split.
Qed.

Lemma sentinels_of_engine_arguments_witness :
  exists source image,
    spawns (emitted (serve demo_config clock
              {| field_original_claim := Some "The sky is green";
                 field_source_identifier := Some "N/A";
                 claimImage := Some camera_photo |} child_ok ∅)) =
      [("python", [main_py demo_config; "The sky is green"; source; image],
        process_env demo_config)] /\
    (image = "null" <-> Some camera_photo = None) /\
    (source = "N/A" <->
       Some "N/A" = None \/ Some "N/A" = Some "" \/ Some "N/A" = Some "N/A").
Proof.
  apply (sentinels_of_engine_arguments demo_config clock
           {| field_original_claim := Some "The sky is green";
              field_source_identifier := Some "N/A";
              claimImage := Some camera_photo |}
           "The sky is green" child_ok ∅);
    [reflexivity|discriminate].
Defined.

Lemma engine_arguments_never_empty_witness :
  exists claim source image,
    ["/srv/claimvery/backend/main.py"; "The sea is red"; "N/A";
     "uploads/1700000000000.png"] = [main_py demo_config; claim; source; image] /\
    claim <> "" /\ source <> "" /\ image <> "".
Proof.
  apply (engine_arguments_never_empty demo_config clock sea_request_with_image
           child_ok ∅ "python"
           ["/srv/claimvery/backend/main.py"; "The sea is red"; "N/A";
            "uploads/1700000000000.png"]
           (process_env demo_config)).
  apply list_elem_of_singleton. reflexivity.
Defined.

(** ** Requests in flight together *)

Section Overlapped.
Context `{JSON}.
Variable cfg : server_config.

#[local] Opaque on_close.

(** The run of the middleware. *)
Lemma upload_single_run now r fs :
  upload_single now r fs =
    match claimImage r with
    | None =>
        Run fs []
          (Normal {| original_claim := field_original_claim r;
                     source_identifier := field_source_identifier r;
                     file := None |})
    | Some u =>
        Run (<[storage_path now (originalname u) := content u]> fs)
          [EvWriteFile (storage_path now (originalname u))]
          (Normal {| original_claim := field_original_claim r;
                     source_identifier := field_source_identifier r;
                     file := Some {| file_originalname := originalname u;
                                     filename := storage_filename now (originalname u);
                                     path := storage_path now (originalname u) |} |})
    end.
Proof. unfold upload_single. by destruct (claimImage r). Qed.

(** The handler touches no file and never throws. *)
Lemma verify_run req fs :
  files (verify cfg req fs) = fs /\
  exists p, outcome (verify cfg req fs) = Normal p /\
    (p = None <-> (original_claim req = None \/ original_claim req = Some "")) /\
    (forall pd, p = Some pd ->
       req_file pd = file req /\
       imagePath pd = match file req with Some f => path f | None => "null" end /\
       resultData pd = "" /\ errorData pd = "") /\
    responses (emitted (verify cfg req fs)) =
      match p with
      | None => [(400%Z, ErrorBody "Claim text is required." None)]
      | Some _ => []
      end.
Proof.
  unfold verify. destruct (original_claim req) as [[|c claim]|]; simpl.
  - split; [done|]. exists None. split; [done|]. split; [naive_solver|]. done.
  - split; [done|]. eexists (Some _). split; [done|].
    split; [split; [done|intros [?|?]; done]|].
    split; [|done]. by intros pd [= <-].
  - split; [done|]. exists None. split; [done|]. split; [naive_solver|]. done.
Qed.


(** The run of the handler on an accepted claim. *)
Lemma verify_run_accepted req claim fs :
  original_claim req = Some claim -> claim <> "" ->
  verify cfg req fs =
    Run fs
      [EvLog (LogReceived claim (source_identifier req)
                match file req with Some f => path f | None => "null" end);
       EvLog LogStarting;
       EvSpawn "python"
         [main_py cfg; claim; or_else (source_identifier req) "N/A";
          match file req with Some f => path f | None => "null" end]
         (process_env cfg)]
      (Normal (Some {| req_file := file req;
                       imagePath := match file req with
                                    | Some f => path f
                                    | None => "null"
                                    end;
                       resultData := ""; errorData := "" |})).
Proof.
  intros Hclaim Hne. unfold verify. rewrite Hclaim.
  by destruct claim as [|c claim].
Qed.

(** The run of the handler on a missing claim. *)
Lemma verify_run_rejected req fs :
  original_claim req = None \/ original_claim req = Some "" ->
  verify cfg req fs =
    Run fs [EvRespond 400 (ErrorBody "Claim text is required." None)]
        (Normal None).
Proof. intros Hclaim. unfold verify. by destruct Hclaim as [-> | ->]. Qed.

(** Sequencing after an action that returned. *)
Lemma M_bind_normal {A B} (k : A -> M B) (m : M A) fs fs' evs a :
  m fs = Run fs' evs (Normal a) ->
  M_bind A B k m fs = prepend evs (k a fs').
Proof. intros Hm. unfold M_bind, prepend. by rewrite Hm. Qed.



#[local] Opaque M_bind.

(** Looks up a staged path among the staged and deleted ones. *)
Ltac lookup_staged :=
  simpl; rewrite ?lookup_delete_ne, ?lookup_insert_ne by congruence;
  apply lookup_insert_eq.

(** Finds the run of the action in front: middleware, handler, or a
    [close] listener whose staged file is in the directory. *)
Ltac run_action :=
  first
    [ rewrite upload_single_run;
      match goal with
      | Hf : claimImage ?r = _ |- context [claimImage ?r] => rewrite Hf
      end; reflexivity
    | apply verify_run_accepted; simpl; [eassumption|done]
    | apply verify_run_rejected; simpl; auto
    | rewrite foldl_on_data; simpl; fold_buffers;
      first [ rewrite on_close_no_file by reflexivity; reflexivity
            | eapply on_close_present; [reflexivity|lookup_staged] ]
    | reflexivity ].

Ltac step := erewrite M_bind_normal by run_action; simpl.

(** The last listener of a sequence, when its staged file is there. *)
Ltac last_close :=
  rewrite ?foldl_on_data; simpl; fold_buffers;
  first [ rewrite on_close_no_file by reflexivity
        | erewrite on_close_present; [|reflexivity|lookup_staged]
        | idtac ];
  simpl.

Lemma serve_alone_responses now r child fs :
  responses (emitted (serve cfg now r child fs)) =
    match field_original_claim r with
    | None | Some "" => [(400%Z, ErrorBody "Claim text is required." None)]
    | Some _ =>
        [interpret (exit_code child) (stdout_of (output child))
                   (stderr_of (output child))]
    end.
Proof.
  destruct (claim_cases r) as [Hm|(claim & Hc & Hn)].
  - destruct (serve_rejected_responses cfg now r child fs Hm) as [_ ->].
    by destruct Hm as [-> | ->].
  - rewrite (serve_accepted_responses cfg now r claim) by done.
    rewrite Hc. by destruct claim.
Qed.

(** X7: two requests in flight together do not disturb each other as long
    as their staged files differ: when one of them carries no file, or the
    two uploads were staged at different clock readings, no listener
    throws and the responses sent are exactly the two that the requests
    would get when served alone (a rejection is sent at once, so the order
    of the two may differ). *)
Theorem overlapped_requests_answered_as_alone now1 r1 child1 now2 r2 child2 fs :
  claimImage r1 = None \/ claimImage r2 = None \/ now1 <> now2 ->
  outcome (serve_overlapped cfg now1 r1 child1 now2 r2 child2 fs) = Normal tt /\
  responses (emitted (serve_overlapped cfg now1 r1 child1 now2 r2 child2 fs)) ≡ₚ
    (responses (emitted (serve cfg now1 r1 child1 fs)) ++
     responses (emitted (serve cfg now2 r2 child2 fs)))%list.
Proof.
  intros Hfree.
  assert (forall u1 u2, claimImage r1 = Some u1 -> claimImage r2 = Some u2 ->
            storage_path now1 (originalname u1) <>
            storage_path now2 (originalname u2)) as Hpaths.
  { intros u1 u2 H1 H2 Heq. apply storage_path_clock in Heq.
    destruct Hfree as [?|[?|?]]; congruence. }
  clear Hfree. rewrite !serve_alone_responses.
  destruct (claimImage r1) as [u1|] eqn:Hf1;
    destruct (claimImage r2) as [u2|] eqn:Hf2;
    try (specialize (Hpaths _ _ eq_refl eq_refl));
    destruct (field_original_claim r1) as [[|c1 cl1]|] eqn:Hc1;
    destruct (field_original_claim r2) as [[|c2 cl2]|] eqn:Hc2;
    solve [ unfold serve_overlapped, mbind; repeat step; last_close;
            repeat match goal with
                   | |- context [interpret ?a ?b ?c] => destruct (interpret a b c)
                   end;
            split; [done|]; solve [reflexivity | apply perm_swap] ].
Qed.

(** X8: two accepted requests whose uploads are staged in the same
    millisecond under names with the same extension share one staged path.
    Whatever the engines do, the first [close] listener answers its client
    and removes the file, the second listener throws on the missing file,
    and the second client is never answered. *)
Theorem same_clock_uploads_collide now r1 u1 claim1 child1 r2 u2 claim2 child2 fs :
  claimImage r1 = Some u1 -> claimImage r2 = Some u2 ->
  field_original_claim r1 = Some claim1 -> claim1 <> "" ->
  field_original_claim r2 = Some claim2 -> claim2 <> "" ->
  extname (originalname u1) = extname (originalname u2) ->
  let p := storage_path now (originalname u1) in
  let run := serve_overlapped cfg now r1 child1 now r2 child2 fs in
  outcome run = Throw (ENOENT "unlink" p) /\
  responses (emitted run) =
    [interpret (exit_code child1) (stdout_of (output child1))
               (stderr_of (output child1))] /\
  written (emitted run) = [p; p] /\
  unlinked (emitted run) = [p] /\
  files run !! p = None.
Proof.
  intros Hf1 Hf2 Hc1 Hn1 Hc2 Hn2 Hext p run. subst run.
  assert (storage_path now (originalname u2) = p) as Hp.
  { unfold p, storage_path, storage_filename. by rewrite Hext. }
  unfold serve_overlapped, mbind. repeat step. rewrite Hp. fold p.
  repeat step.
  rewrite !foldl_on_data; simpl; fold_buffers.
  erewrite on_close_missing; [|reflexivity|simpl; apply lookup_delete_eq].
  simpl. destruct (interpret _ _ _).
  repeat split; try done. apply lookup_delete_eq.
Qed.

#[local] Transparent M_bind.
#[local] Transparent on_close.

End Overlapped.

Lemma overlapped_requests_answered_as_alone_witness :
  outcome (serve_overlapped demo_config
             1700000000000 sky_request_with_image child_ok
             1700000000001 sea_request_with_image child_failed ∅) = Normal tt /\
  responses (emitted (serve_overlapped demo_config
             1700000000000 sky_request_with_image child_ok
             1700000000001 sea_request_with_image child_failed ∅)) ≡ₚ
    (responses (emitted (serve demo_config 1700000000000
                           sky_request_with_image child_ok ∅)) ++
     responses (emitted (serve demo_config 1700000000001
                           sea_request_with_image child_failed ∅)))%list.
Proof.
  apply (overlapped_requests_answered_as_alone demo_config
           1700000000000 sky_request_with_image child_ok
           1700000000001 sea_request_with_image child_failed ∅).
  right; right. lia.
Defined.

Lemma same_clock_uploads_collide_witness :
  let run := serve_overlapped demo_config
               clock sky_request_with_image child_garbled
               clock sea_request_with_image child_ok ∅ in
  outcome run = Throw (ENOENT "unlink" "uploads/1700000000000.png") /\
  responses (emitted run) =
    [interpret (Some 0%Z) "not json" ""] /\
  written (emitted run) =
    ["uploads/1700000000000.png"; "uploads/1700000000000.png"] /\
  unlinked (emitted run) = ["uploads/1700000000000.png"] /\
  files run !! "uploads/1700000000000.png" = None.
Proof.
  apply (same_clock_uploads_collide demo_config clock
           sky_request_with_image sky_shot "The sky is green" child_garbled
           sea_request_with_image sea_shot "The sea is red" child_ok ∅);
    first [reflexivity | discriminate].
Defined.

(** ** The front end *)

Section FrontEndFacts.
Context `{JSON} `{!ToBoolean}.
Variable cfg : server_config.

Lemma received_serve now r child fs :
  received (emitted (serve cfg now r child fs)) =
    Some match field_original_claim r with
         | None | Some "" => (400%Z, ErrorBody "Claim text is required." None)
         | Some _ =>
             interpret (exit_code child) (stdout_of (output child))
                       (stderr_of (output child))
         end.
Proof.
  unfold received. rewrite serve_alone_responses.
  by destruct (field_original_claim r) as [[|c claim]|].
Qed.

(** X9: what the user sees when the engine fails.  After a submission whose
    engine exits with a code other than zero or prints nothing, the spinner
    is off, no result is kept, and the error panel shows the engine's
    stderr text as it is; when stderr is empty the panel falls back to
    "Agent script failed.". *)
Theorem engine_failure_shown now r claim child fs st :
  field_original_claim r = Some claim -> claim <> "" ->
  exit_code child <> Some 0%Z \/ stdout_of (output child) = "" ->
  let message :=
    if String.eqb (stderr_of (output child)) "" then "Agent script failed."
    else stderr_of (output child) in
  submit cfg now r child fs st =
    Some {| results := None; loading := false; error := Some message |} /\
  ResultsDisplay <$> submit cfg now r child fs st = Some (ViewError message).
Proof.
  intros Hclaim Hne Hfail message. subst message.
  unfold submit. rewrite received_serve, Hclaim.
  destruct claim as [|c claim]; [done|].
  rewrite interpret_failure by done. simpl.
  by destruct (stderr_of (output child)).
Qed.

(** X10: what the user sees when the engine's output does not parse: the
    error panel shows the raw stdout text. *)
Theorem unparsable_output_shown now r claim child fs st :
  field_original_claim r = Some claim -> claim <> "" ->
  exit_code child = Some 0%Z ->
  stdout_of (output child) <> "" ->
  JSON_parse (stdout_of (output child)) = None ->
  submit cfg now r child fs st =
    Some {| results := None; loading := false;
            error := Some (stdout_of (output child)) |} /\
  ResultsDisplay <$> submit cfg now r child fs st =
    Some (ViewError (stdout_of (output child))).
Proof.
  intros Hclaim Hne Hcode Hout Hparse.
  unfold submit. rewrite received_serve, Hclaim, Hcode.
  destruct claim as [|c claim]; [done|].
  rewrite interpret_unparsable by done. simpl.
  by destruct (stdout_of (output child)).
Qed.

(** X11: a document that is false as a condition shows nothing.  When the
    engine exits with 0 and prints a JSON document such as [null], the form
    ends with the spinner off and the results component returns nothing:
    no report and no error panel. *)
Theorem false_document_shows_nothing now r claim child fs st v :
  field_original_claim r = Some claim -> claim <> "" ->
  exit_code child = Some 0%Z ->
  JSON_parse (stdout_of (output child)) = Some v ->
  to_boolean v = false ->
  ResultsDisplay <$> submit cfg now r child fs st = Some ViewNothing.
Proof.
  intros Hclaim Hne Hcode Hparse Hfalse.
  unfold submit. rewrite received_serve, Hclaim, Hcode.
  destruct claim as [|c claim]; [done|].
  rewrite (interpret_parsed _ _ v) by done. simpl.
  unfold ResultsDisplay; simpl. by rewrite Hfalse.
Qed.

(** X13: the error text is never empty.  However the request fails, with
    details, with an error field only, or with no response at all, the
    form ends with the error panel on a non-empty text; with no response
    the text is "An unexpected error occurred.". *)
Theorem rejection_always_shown details err st :
  exists message,
    message <> "" /\
    ResultsDisplay (handleSubmit_end (PostRejected details err)
                      (handleSubmit_begin st)) = ViewError message /\
    (details = None -> err = None ->
     message = "An unexpected error occurred.").
Proof.
  unfold ResultsDisplay; simpl.
  destruct details as [[|a d]|], err as [[|b e]|]; simpl;
    eexists; (split; [|split; [reflexivity|]]); done.
Qed.


End FrontEndFacts.

Lemma engine_failure_shown_witness :
  submit demo_config clock sky_request child_failed ∅ initial_state =
    Some {| results := None; loading := false;
            error := Some "API key missing" |} /\
  ResultsDisplay <$> submit demo_config clock sky_request child_failed ∅
                       initial_state =
    Some (ViewError "API key missing").
Proof.
  apply (engine_failure_shown demo_config clock sky_request "The sky is green"
           child_failed ∅ initial_state);
    [reflexivity|discriminate|left; discriminate].
Defined.

Lemma unparsable_output_shown_witness :
  submit demo_config clock sky_request child_garbled ∅ initial_state =
    Some {| results := None; loading := false; error := Some "not json" |} /\
  ResultsDisplay <$> submit demo_config clock sky_request child_garbled ∅
                       initial_state =
    Some (ViewError "not json").
Proof.
  apply (unparsable_output_shown demo_config clock sky_request
           "The sky is green" child_garbled ∅ initial_state);
    [reflexivity|discriminate|reflexivity|discriminate|reflexivity].
Defined.

Lemma false_document_shows_nothing_witness :
  ResultsDisplay <$> submit demo_config clock sky_request
                       {| output := [Stdout "null"]; exit_code := Some 0%Z |} ∅
                       initial_state =
    Some ViewNothing.
Proof.
  exact (@false_document_shows_nothing reference_json reference_to_boolean
           demo_config clock sky_request "The sky is green"
           {| output := [Stdout "null"]; exit_code := Some 0%Z |} ∅
           initial_state JNull eq_refl ltac:(discriminate) eq_refl eq_refl
           eq_refl).
Defined.

(** ** Where a staged file lands *)

Lemma get_lt i (p : string) c : String.get i p = Some c -> i < String.length p.
Proof.
  revert i. induction p as [|a p IH]; intros [|i]; simpl; try done.
  - lia.
  - intros Hg. apply IH in Hg. lia.
Qed.

Lemma has_char_get c (s : string) :
  (forall k, String.get k s <> Some c) -> has_char c s = false.
Proof.
  induction s as [|a s IH]; intros Hk; simpl; [done|].
  apply orb_false_intro.
  - apply Ascii.eqb_neq. intros ->. by apply (Hk 0).
  - apply IH. intros k. apply (Hk (S k)).
Qed.

Lemma has_char_app c (a b : string) :
  has_char c (a +:+ b) = has_char c a || has_char c b.
Proof.
  induction a as [|x a IH]; [done|].
  rewrite append_cons. simpl. by rewrite IH, orb_assoc.
Qed.

Section ScanInvariant.
Variable p : string.

Lemma scan_inv_init : scan_inv p (String.length p) ext_scan_init.
Proof. constructor; simpl; (try by left); intros; lia || done. Qed.

(** Visiting a character that is not a separator. *)
Lemma scan_inv_char i c st :
  String.get i p = Some c -> c <> "/"%char ->
  scan_inv p (S i) st -> scan_inv p i (ext_scan_char i c st).
Proof.
  intros Hget Hc [Hs He Hd Hns Hny Hnl].
  pose proof (get_lt i p c Hget) as Hlt.
  assert (forall j x, Z.of_nat i <= Z.of_nat j < Z.of_nat i + 1 ->
            x <> c -> String.get j p <> Some x)%Z as Hhere.
  { intros j x Hj Hx. replace j with i by lia. rewrite Hget. congruence. }
  unfold ext_scan_char.
  destruct (Z.eqb_spec (scan_end st) (-1)) as [Hend|Hend];
    destruct (Ascii.eqb_spec c "."%char) as [->|Hdot]; simpl;
    repeat (match goal with
            | |- context [(?a =? ?b)%Z] => destruct (Z.eqb_spec a b)
            end; simpl);
    constructor; simpl;
    solve
      [ split; intros; first [lia | congruence | tauto]
      | first [ right; lia | tauto ]
      | first [ left; lia
              | right; split; [lia|by rewrite ?Nat2Z.id]
              | destruct Hd as [?|[? ?]]; [left; lia|right; split; [lia|done]] ]
      | intros j Hj; destruct (decide (j = i)) as [->|];
        [ rewrite Hget; congruence | apply Hns; lia ]
      | intros Hsd j Hj; try lia; destruct (decide (j = i)) as [->|];
        [ rewrite Hget; congruence | apply Hny; [done|lia] ]
      | intros j Hj Hsd; try lia;
        first [ apply Hnl; [lia|done] | apply Hny; [lia|lia] ] ].
Qed.

(** Skipping a trailing separator. *)
Lemma scan_inv_skip i st :
  matchedSlash st = true -> scan_inv p (S i) st -> scan_inv p i st.
Proof.
  intros Hm [Hs He Hd Hns Hny Hnl]. apply Hs in Hm.
  constructor; try done.
  - by left.
  - left. destruct Hd as [?|[? ?]]; [done|lia].
  - intros j Hj. lia.
  - intros _ j Hj. lia.
Qed.

(** Stopping at the separator in front of the component. *)
Lemma scan_inv_break n part st :
  scan_inv p n st ->
  scan_inv p n {| startDot := startDot st; startPart := part;
                  scan_end := scan_end st; matchedSlash := matchedSlash st;
                  preDotState := preDotState st |}.
Proof. intros [Hs He Hd Hns Hny Hnl]. by constructor. Qed.

Lemma scan_inv_loop n st :
  scan_inv p n st -> exists n', scan_inv p n' (ext_scan_loop p n st).
Proof.
  revert st. induction n as [|i IH]; intros st Hinv; simpl; [by exists 0|].
  destruct (String.get i p) as [c|] eqn:Hget; [|by exists (S i)].
  destruct (Ascii.eqb_spec c "/"%char) as [->|Hc].
  - destruct (matchedSlash st) eqn:Hm; simpl.
    + apply IH. by apply scan_inv_skip.
    + exists (S i).
      pose proof (scan_inv_break (S i) (Z.of_nat i + 1) st Hinv) as Hb.
      by rewrite Hm in Hb.
  - apply IH. by apply scan_inv_char.
Qed.

End ScanInvariant.

Lemma substring_cons n m (s : string) c :
  String.get n s = Some c ->
  substring n (S m) s = String c (substring (S n) m s).
Proof.
  revert s. induction n as [|n IH]; intros [|a s] Hget; simpl in *; try done.
  - injection Hget as ->. by destruct s, m.
  - by apply IH.
Qed.

(** The characters of an extension: after its dot, neither a separator nor
    another dot. *)
Lemma extname_chars p :
  extname p = "" \/
  exists r, extname p = String "." r /\
            has_char "/" r = false /\ has_char "." r = false.
Proof.
  unfold extname.
  destruct (scan_inv_loop p (String.length p) ext_scan_init (scan_inv_init p))
    as [n [Hs He Hd Hns Hny Hnl]].
  set (st := ext_scan_loop p (String.length p) ext_scan_init) in *.
  destruct (Z.eqb_spec (startDot st) (-1)) as [|Hsd]; simpl; [by left|].
  destruct (_ || _ || _); [by left|]. right.
  destruct Hd as [|[Hrange Hget]]; [done|].
  replace (Z.to_nat (scan_end st - startDot st))
    with (S (Z.to_nat (scan_end st - startDot st - 1))) by lia.
  rewrite (substring_cons _ _ _ _ Hget). eexists. split; [reflexivity|].
  set (m := Z.to_nat (scan_end st - startDot st - 1)).
  set (sd := Z.to_nat (startDot st)).
  assert (forall k c, String.get k (substring (S sd) m p) = Some c ->
            (startDot st < Z.of_nat (k + S sd) < scan_end st)%Z /\
            String.get (k + S sd) p = Some c) as Hchars.
  { intros k c Hk. destruct (decide (k < m)) as [Hlt|Hge].
    - rewrite substring_correct1 in Hk by done. split; [lia|done].
    - rewrite substring_correct2 in Hk by lia. done. }
  split; apply has_char_get; intros k Hk;
    destruct (Hchars k _ Hk) as [Hj Hg].
  - apply (Hns (k + S sd)); [lia|done].
  - apply (Hnl (k + S sd)); [lia|done|done].
Qed.

Lemma all_digits_no_char c (d : string) :
  is_digit c = false -> all_digits d = true -> has_char c d = false.
Proof.
  intros Hc. induction d as [|a d IH]; simpl; [done|].
  intros [Ha Hd]%andb_prop. rewrite IH by done.
  rewrite orb_false_r. apply Ascii.eqb_neq. intros ->. congruence.
Qed.

Lemma number_to_string_nonempty n : number_to_string n <> "".
Proof.
  unfold number_to_string, pretty, pretty_N. case_decide; [done|].
  rewrite pretty_N_go_step by lia.
  assert (forall x s, s <> "" -> pretty_N_go x s <> "") as Hgo.
  { intros x. induction (N.lt_wf_0 x) as [x _ IH]; intros s Hs.
    destruct (decide (x = 0%N)) as [->|Hx]; [by rewrite pretty_N_go_0|].
    rewrite pretty_N_go_step by lia. apply IH; [apply N.div_lt; lia|done]. }
  by apply Hgo.
Qed.

(** X15: a staged file is always a direct child of the upload directory.
    Whatever name the client gave the file, separators and parent
    directories included, the staged path is [uploads/] followed by a
    non-empty name that holds no separator and starts with a digit. *)
Theorem staged_file_stays_in_upload_directory now name :
  exists f first rest,
    storage_path now name = "uploads/" +:+ f /\
    f = String first rest /\ is_digit first = true /\
    has_char "/" f = false.
Proof.
  destruct (number_to_string now) as [|first rest] eqn:Hd.
  { by destruct (number_to_string_nonempty now). }
  pose proof (number_to_string_digits now) as Hdigits. rewrite Hd in Hdigits.
  exists (storage_filename now name), first, (rest +:+ extname name).
  split; [reflexivity|]. unfold storage_filename. rewrite Hd.
  split; [reflexivity|].
  split; [by simpl in Hdigits; apply andb_prop in Hdigits as [? _]|].
  rewrite has_char_app, (all_digits_no_char "/" _ eq_refl Hdigits). simpl.
  destruct (extname_chars name) as [->|(r & -> & Hslash & _)]; [done|].
  simpl. by rewrite Hslash.
Qed.

(** ** The extension of a staged file *)

Section PlainRuns.
Variable q : string.

Lemma ext_scan_char_plain_start i c st :
  c <> "/"%char -> c <> "."%char -> startDot st = (-1)%Z ->
  ext_scan_char i c st = mark_end (Z.of_nat i + 1) st.
Proof.
  intros _ Hdot Hsd. unfold ext_scan_char, mark_end.
  apply Ascii.eqb_neq in Hdot. rewrite Hdot.
  destruct (scan_end st =? -1)%Z; simpl; by rewrite Hsd.
Qed.

Lemma ext_scan_char_plain_before i c st :
  c <> "/"%char -> c <> "."%char ->
  startDot st <> (-1)%Z -> scan_end st <> (-1)%Z ->
  ext_scan_char i c st = before_dot st.
Proof.
  intros _ Hdot Hsd Hend. unfold ext_scan_char, before_dot.
  apply Ascii.eqb_neq in Hdot. rewrite Hdot.
  apply Z.eqb_neq in Hsd, Hend. by rewrite Hend, Hsd.
Qed.

Lemma ext_scan_loop_step i c st :
  String.get i q = Some c -> c <> "/"%char ->
  ext_scan_loop q (S i) st = ext_scan_loop q i (ext_scan_char i c st).
Proof.
  intros Hget Hc. simpl. rewrite Hget.
  apply Ascii.eqb_neq in Hc. by rewrite Hc.
Qed.

Lemma mark_end_marked e e' st :
  e' <> (-1)%Z -> mark_end e (mark_end e' st) = mark_end e' st.
Proof.
  intros He'. unfold mark_end.
  destruct (Z.eqb_spec (scan_end st) (-1)) as [Hst|Hst]; simpl.
  - apply Z.eqb_neq in He'. by rewrite He'.
  - apply Z.eqb_neq in Hst. by rewrite Hst.
Qed.

Lemma mark_end_startDot e st : startDot (mark_end e st) = startDot st.
Proof. unfold mark_end. by destruct (scan_end st =? -1)%Z. Qed.

(** A run of plain characters behind which no dot has been seen only marks
    the end of the component. *)
Lemma ext_scan_loop_plain_start lo k st :
  startDot st = (-1)%Z ->
  (forall j, lo <= j < lo + S k -> plain_at q j) ->
  ext_scan_loop q (lo + S k) st =
    ext_scan_loop q lo (mark_end (Z.of_nat (lo + S k)) st).
Proof.
  revert st. induction k as [|k IH]; intros st Hsd Hplain.
  - destruct (Hplain lo ltac:(lia)) as (c & Hget & Hs & Hd).
    replace (lo + 1) with (S lo) by lia.
    rewrite (ext_scan_loop_step lo c) by done.
    rewrite ext_scan_char_plain_start by done.
    by replace (Z.of_nat lo + 1)%Z with (Z.of_nat (S lo)) by lia.
  - destruct (Hplain (lo + S k) ltac:(lia)) as (c & Hget & Hs & Hd).
    replace (lo + S (S k)) with (S (lo + S k)) by lia.
    rewrite (ext_scan_loop_step (lo + S k) c) by done.
    rewrite ext_scan_char_plain_start by done.
    rewrite IH; [|by rewrite mark_end_startDot|intros j Hj; apply Hplain; lia].
    rewrite mark_end_marked by lia.
    by replace (Z.of_nat (lo + S k) + 1)%Z with (Z.of_nat (S (lo + S k))) by lia.
Qed.

(** A run of plain characters in front of the recorded dot only notes that
    the dot is not the first character. *)
Lemma ext_scan_loop_plain_before lo k st :
  startDot st <> (-1)%Z -> scan_end st <> (-1)%Z ->
  (forall j, lo <= j < lo + S k -> plain_at q j) ->
  ext_scan_loop q (lo + S k) st = ext_scan_loop q lo (before_dot st).
Proof.
  revert st. induction k as [|k IH]; intros st Hsd Hend Hplain.
  - destruct (Hplain lo ltac:(lia)) as (c & Hget & Hs & Hd).
    replace (lo + 1) with (S lo) by lia.
    rewrite (ext_scan_loop_step lo c) by done.
    by rewrite ext_scan_char_plain_before.
  - destruct (Hplain (lo + S k) ltac:(lia)) as (c & Hget & Hs & Hd).
    replace (lo + S (S k)) with (S (lo + S k)) by lia.
    rewrite (ext_scan_loop_step (lo + S k) c) by done.
    rewrite ext_scan_char_plain_before by done.
    rewrite IH; [done|done|done|intros j Hj; apply Hplain; lia].
Qed.

End PlainRuns.

Lemma length_append (a b : string) :
  String.length (a +:+ b) = String.length a + String.length b.
Proof.
  induction a as [|x a IH]; [done|]. rewrite append_cons. simpl. by rewrite IH.
Qed.

Lemma substring_all (b : string) : substring 0 (String.length b) b = b.
Proof. induction b as [|x b IH]; simpl; [done|by rewrite IH]. Qed.

Lemma substring_append (a b : string) :
  substring (String.length a) (String.length b) (a +:+ b) = b.
Proof.
  induction a as [|x a IH]; [apply substring_all|].
  rewrite append_cons. simpl. apply IH.
Qed.

Lemma get_in_range j (s : string) :
  j < String.length s -> exists c, String.get j s = Some c.
Proof.
  revert j. induction s as [|a s IH]; intros j Hj; simpl in *; [lia|].
  destruct j as [|j]; [by eexists|]. apply IH. lia.
Qed.

Lemma has_char_false_get c (s : string) j :
  has_char c s = false -> String.get j s <> Some c.
Proof.
  revert j. induction s as [|a s IH]; intros j Hs; simpl in *; [by destruct j|].
  apply orb_false_elim in Hs as [Ha Hs]. apply Ascii.eqb_neq in Ha.
  destruct j as [|j]; [congruence|by apply IH].
Qed.

(** Every index of a text without separator and dot holds a plain
    character. *)
Lemma plain_text_plain_at (s : string) j :
  has_char "/" s = false -> has_char "." s = false ->
  j < String.length s -> plain_at s j.
Proof.
  intros Hslash Hdot Hj. destruct (get_in_range j s Hj) as [c Hc].
  exists c. split; [done|].
  split; intros ->.
  - by apply (has_char_false_get "/"%char s j).
  - by apply (has_char_false_get "."%char s j).
Qed.

(** The scan ends at index 0 or at the separator in front of the last
    component; neither changes what the result is computed from. *)
Lemma ext_scan_loop_stop (q : string) lo st :
  lo = 0 \/ (exists i, lo = S i /\ String.get i q = Some "/"%char /\
                       matchedSlash st = false) ->
  startDot (ext_scan_loop q lo st) = startDot st /\
  scan_end (ext_scan_loop q lo st) = scan_end st /\
  preDotState (ext_scan_loop q lo st) = preDotState st.
Proof.
  intros [->|(i & -> & Hget & Hm)]; simpl; [done|].
  by rewrite Hget, Hm.
Qed.

Lemma dir_prefix_stop (pre rest : string) st :
  dir_prefix pre -> matchedSlash st = false ->
  String.length pre = 0 \/
  (exists i, String.length pre = S i /\
             String.get i (pre +:+ rest) = Some "/"%char /\
             matchedSlash st = false).
Proof.
  intros [->|[dir ->]] Hm; [by left|right].
  exists (String.length dir). split; [rewrite length_append; simpl; lia|].
  split; [|done]. rewrite append_assoc.
  symmetry. apply (append_correct2 dir ("/" +:+ rest) 0).
Qed.

(** Behind a directory part, a plain name has no extension. *)
Lemma extname_plain (pre d : string) :
  dir_prefix pre -> d <> "" ->
  has_char "/" d = false -> has_char "." d = false ->
  extname (pre +:+ d) = "".
Proof.
  intros Hpre Hd Hslash Hdot. unfold extname.
  set (q := pre +:+ d). set (P := String.length pre).
  destruct (String.length d) as [|k] eqn:Hlen; [by destruct d|].
  assert (String.length q = P + S k) as ->.
  { unfold q, P. by rewrite length_append, Hlen. }
  rewrite ext_scan_loop_plain_start; [|done|].
  - destruct (ext_scan_loop_stop q P
                (mark_end (Z.of_nat (P + S k)) ext_scan_init)) as (-> & _ & _).
    { by apply dir_prefix_stop. }
    reflexivity.
  - intros j Hj.
    destruct (plain_text_plain_at d (j - P) Hslash Hdot ltac:(lia))
      as (c & Hc & ?).
    exists c. split; [|done]. rewrite <- Hc. unfold q.
    replace j with ((j - P) + P) at 1 by lia.
    symmetry. apply append_correct2.
Qed.

(** Behind a directory part, a plain name followed by a dot and a plain
    text has that dot and text as its extension. *)
Lemma extname_plain_ext (pre d r : string) :
  dir_prefix pre -> d <> "" ->
  has_char "/" d = false -> has_char "." d = false ->
  has_char "/" r = false -> has_char "." r = false ->
  extname (pre +:+ d +:+ String "." r) = String "." r.
Proof.
  intros Hpre Hd Hds Hdd Hrs Hrd.
  set (q := pre +:+ d +:+ String "." r).
  set (P := String.length pre). set (L := String.length d).
  assert (String.length q = S (P + L) + String.length r) as Hlen.
  { unfold q, P, L. rewrite !length_append. simpl. lia. }
  assert (forall j (s : string), P <= j ->
            String.get j (pre +:+ s) = String.get (j - P) s) as Hskip.
  { intros j s Hj. replace j with ((j - P) + P) at 1 by lia.
    symmetry. apply append_correct2. }
  assert (forall j, P <= j < P + L -> plain_at q j) as Hfront.
  { intros j Hj.
    destruct (plain_text_plain_at d (j - P) Hds Hdd ltac:(lia)) as (c & Hc & ?).
    exists c. split; [|done]. unfold q. rewrite Hskip by lia.
    rewrite <- Hc. symmetry. apply append_correct1. unfold L in Hj. lia. }
  assert (String.get (P + L) q = Some "."%char) as Hdot.
  { unfold q. rewrite Hskip by lia. replace (P + L - P) with (0 + L) by lia.
    symmetry. apply (append_correct2 d (String "." r) 0). }
  assert (forall j, S (P + L) <= j < S (P + L) + String.length r ->
            plain_at q j) as Hback.
  { intros j Hj.
    destruct (plain_text_plain_at r (j - S (P + L)) Hrs Hrd ltac:(lia))
      as (c & Hc & ?).
    exists c. split; [|done]. unfold q. rewrite Hskip by lia.
    replace (j - P) with (S (j - S (P + L)) + L) by lia.
    rewrite <- Hc. symmetry.
    apply (append_correct2 d (String "." r) (S (j - S (P + L)))). }
  assert (ext_scan_loop q (String.length q) ext_scan_init =
          ext_scan_loop q P
            {| startDot := Z.of_nat (P + L); startPart := 0;
               scan_end := Z.of_nat (String.length q); matchedSlash := false;
               preDotState := -1 |}) as Hscan.
  { rewrite Hlen.
    assert (ext_scan_loop q (S (P + L) + String.length r) ext_scan_init =
            ext_scan_loop q (P + L)
              {| startDot := Z.of_nat (P + L); startPart := 0;
                 scan_end := Z.of_nat (S (P + L) + String.length r);
                 matchedSlash := false; preDotState := 0 |}) as ->.
    { destruct (String.length r) as [|k] eqn:Hr.
      - replace (S (P + L) + 0) with (S (P + L)) by lia.
        rewrite (ext_scan_loop_step q (P + L) "."%char) by done.
        unfold ext_scan_char; simpl. do 3 f_equal. lia.
      - rewrite ext_scan_loop_plain_start by done.
        rewrite (ext_scan_loop_step q (P + L) "."%char) by done.
        unfold ext_scan_char, mark_end; simpl.
        destruct (Z.eqb_spec (Z.of_nat (S (P + L + S k))) (-1)); [lia|done]. }
    destruct L as [|k] eqn:HL; [by destruct d|].
    rewrite ext_scan_loop_plain_before; [done|simpl; lia|simpl; lia|done]. }
  unfold extname. fold q. rewrite Hscan.
  destruct (ext_scan_loop_stop q P
              {| startDot := Z.of_nat (P + L); startPart := 0;
                 scan_end := Z.of_nat (String.length q); matchedSlash := false;
                 preDotState := -1 |}) as (-> & -> & ->).
  { unfold q. by apply dir_prefix_stop. }
  simpl.
  destruct (Z.eqb_spec (Z.of_nat (P + L)) (-1)); [lia|].
  destruct (Z.eqb_spec (Z.of_nat (String.length q)) (-1)); [lia|]. simpl.
  rewrite Nat2Z.id.
  replace (Z.to_nat (Z.of_nat (String.length q) - Z.of_nat (P + L)))
    with (String.length (String "." r)) by (simpl; lia).
  unfold q, P, L. rewrite <- append_assoc, <- length_append.
  apply substring_append.
Qed.

(** X16: staging keeps the extension.  The extension of the staged file
    name, and of the staged path handed to the engine, is the extension of
    the original name, so whoever reads the staged path sees the file type
    the client's name announced. *)
Theorem staged_file_keeps_extension now name :
  extname (storage_filename now name) = extname name /\
  extname (storage_path now name) = extname name.
Proof.
  assert (has_char "/" (number_to_string now) = false) as Hds.
  { apply all_digits_no_char; [done|apply number_to_string_digits]. }
  assert (has_char "." (number_to_string now) = false) as Hdd.
  { apply all_digits_no_char; [done|apply number_to_string_digits]. }
  pose proof (number_to_string_nonempty now) as Hne.
  assert (dir_prefix "") as Hnone by by left.
  assert (dir_prefix "uploads/") as Hdir by by right; exists "uploads".
  unfold storage_path, storage_filename.
  change (uploadDir +:+ "/" +:+ ?x) with ("uploads/" +:+ x).
  destruct (extname_chars name) as [->|(r & -> & Hrs & Hrd)].
  - rewrite append_empty_r.
    split; [by apply (extname_plain "")|by apply extname_plain].
  - split; [by apply (extname_plain_ext "")|by apply extname_plain_ext].
Qed.

Example staged_path_extension :
  extname (storage_path 1700000000000 "../../etc/holiday.photos/shot.tar.GZ") =
    ".GZ".
Proof. reflexivity. Qed.

(** ** Requests one after another *)

Section Sequences.
Context `{JSON}.
Variable cfg : server_config.

(** One request whose child closes: it returns, with the one response it
    gets in any state of the upload directory. *)
Lemma serve_run now r child fs :
  exists fs' evs,
    serve_engine cfg now r (EngineCloses child) fs = Run fs' evs (Normal tt) /\
    responses evs =
      responses (emitted (serve_engine cfg now r (EngineCloses child) ∅)) /\
    length (responses evs) = 1 /\
    ((exists claim, field_original_claim r = Some claim /\ claim <> "") ->
     fs' ⊆ fs).
Proof.
  rewrite !serve_engine_closes.
  rewrite (serve_alone_responses cfg now r child ∅).
  rewrite <- (serve_alone_responses cfg now r child fs).
  destruct (claim_cases r) as [Hmiss|(claim & Hclaim & Hne)].
  - rewrite (serve_rejected cfg now r child fs Hmiss).
    destruct (claimImage r) as [u|]; eexists _, _;
      (split; [reflexivity|]); (split; [reflexivity|]); (split; [reflexivity|]);
      intros (claim & Hc & Hn); destruct Hmiss; congruence.
  - destruct (claimImage r) as [u|] eqn:Hfile.
    + rewrite (serve_accepted_file cfg now r claim u) by done.
      eexists _, _. split; [reflexivity|].
      split; [reflexivity|]. split; [reflexivity|].
      intros _. rewrite delete_insert_eq. apply delete_subseteq.
    + rewrite (serve_accepted_no_file cfg now r claim) by done.
      eexists _, _. split; [reflexivity|].
      split; [reflexivity|]. split; [reflexivity|]. done.
Qed.

(** X17: requests whose engines all start and close, served one after
    another, each to its response before the next one is staged, are all
    answered: no listener throws, and the responses sent are, in order,
    the one response each request gets when served alone, even when their
    uploads carry the same name and the same clock reading.  When every
    claim is accepted the upload directory holds nothing afterwards that
    it did not hold before. *)
Theorem served_in_turn reqs fs :
  (forall now r e, (now, r, e) ∈ reqs -> exists child, e = EngineCloses child) ->
  outcome (serve_all cfg reqs fs) = Normal tt /\
  responses (emitted (serve_all cfg reqs fs)) =
    flat_map (fun x => responses (emitted (serve_engine cfg x.1.1 x.1.2 x.2 ∅)))
             reqs /\
  (forall x, x ∈ reqs ->
     length (responses (emitted (serve_engine cfg x.1.1 x.1.2 x.2 ∅))) = 1) /\
  ((forall now r e, (now, r, e) ∈ reqs ->
      exists claim, field_original_claim r = Some claim /\ claim <> "") ->
   files (serve_all cfg reqs fs) ⊆ fs).
Proof.
  revert fs. induction reqs as [|[[now r] e] reqs IH]; intros fs Hclose.
  - simpl. repeat split; try done. intros x Hx. by apply elem_of_nil in Hx.
  - destruct (Hclose now r e) as [child ->]; [apply list_elem_of_here|].
    destruct (serve_run now r child fs)
      as (fs' & evs & Hrun & Hresp & Hone & Hsub).
    destruct (IH fs') as (Hout & Hall & Hlen & Hfiles).
    { intros n r' e' Hin. apply (Hclose n r' e'). by apply list_elem_of_further. }
    cbn [serve_all]. unfold mbind.
    rewrite (M_bind_normal _ _ fs fs' evs tt Hrun). unfold prepend; simpl.
    split; [done|]. split; [|split].
    + unfold responses in *. rewrite omap_app. by rewrite Hresp, Hall.
    + intros x [->|Hx]%elem_of_cons; [|by apply Hlen].
      simpl. by rewrite <- Hresp.
    + intros Hacc. trans fs'.
      * apply Hfiles. intros n r' e' Hin. apply (Hacc n r' e').
        by apply list_elem_of_further.
      * apply Hsub. apply (Hacc now r (EngineCloses child)). apply list_elem_of_here.
Qed.


End Sequences.

Lemma served_in_turn_witness :
  outcome (serve_all demo_config two_in_turn ∅) = Normal tt /\
  responses (emitted (serve_all demo_config two_in_turn ∅)) =
    flat_map (fun x => responses (emitted (serve_engine demo_config
                                             x.1.1 x.1.2 x.2 ∅)))
             two_in_turn /\
  (forall x, x ∈ two_in_turn ->
     length (responses (emitted (serve_engine demo_config x.1.1 x.1.2 x.2 ∅))) = 1) /\
  ((forall now r e, (now, r, e) ∈ two_in_turn ->
      exists claim, field_original_claim r = Some claim /\ claim <> "") ->
   files (serve_all demo_config two_in_turn ∅) ⊆ ∅).
Proof.
  apply (served_in_turn demo_config two_in_turn ∅).
  intros now r e Hin. unfold two_in_turn in Hin.
  apply elem_of_cons in Hin as [Hin|Hin]; [injection Hin as -> -> ->; by eexists|].
  apply elem_of_cons in Hin as [Hin|Hin]; [injection Hin as -> -> ->; by eexists|].
  by apply elem_of_nil in Hin.
Defined.


(** ** The decoder on known byte sequences *)

(** Well-formed sequences of two, three and four bytes are kept. *)
Example decode_well_formed :
  Buffer_toString (byte 195 +:+ byte 169) = byte 195 +:+ byte 169 /\
  Buffer_toString (byte 226 +:+ byte 130 +:+ byte 172) =
    byte 226 +:+ byte 130 +:+ byte 172 /\
  Buffer_toString (byte 240 +:+ byte 159 +:+ byte 152 +:+ byte 128) =
    byte 240 +:+ byte 159 +:+ byte 152 +:+ byte 128.
Proof. repeat split; reflexivity. Qed.

(** A sequence cut off by the end of the buffer is one replacement
    character; a continuation byte on its own is one as well; an overlong
    form and a surrogate are replaced byte by byte. *)
Example decode_ill_formed :
  Buffer_toString (byte 226 +:+ byte 130) = replacement_character /\
  Buffer_toString (byte 172 +:+ "A") = replacement_character +:+ "A" /\
  Buffer_toString (byte 192 +:+ byte 128) =
    replacement_character +:+ replacement_character /\
  Buffer_toString (byte 237 +:+ byte 160 +:+ byte 128) =
    replacement_character +:+ replacement_character +:+ replacement_character /\
  Buffer_toString (byte 240 +:+ byte 159 +:+ byte 152 +:+ "A") =
    replacement_character +:+ "A".
Proof. repeat split; reflexivity. Qed.

(** An engine that cannot be started, on the request of Scenario E: nothing
    is sent and the upload stays. *)
Example engine_missing :
  outcome (serve_engine demo_config clock sky_request_with_image
             EngineFailsToStart ∅) = Throw (ENOENT "spawn python" "python") /\
  responses (emitted (serve_engine demo_config clock sky_request_with_image
                        EngineFailsToStart ∅)) = [] /\
  files (serve_engine demo_config clock sky_request_with_image
           EngineFailsToStart ∅) !! "uploads/1700000000000.png" = Some "PNG1".
Proof. repeat split; reflexivity. Qed.
